(** * BookCourier server: route handlers over a document store

    A shallow embedding of the Express route handlers of the BookCourier
    server.  The text followed is the variant that carries every route
    (login, books, orders, pay / cancel, invoices, librarian and admin
    routes); where the file [index.js] words a handler differently the
    difference is noted at the definition.

    - a JavaScript value that travels through a handler is a [value];
    - a document (a JS object, a BSON document) is a [gmap string value];
    - a collection is the list of its documents in insertion order;
    - a handler is a function from the store to the new store and the
      [reply] it sends, [Threw] standing for an exception that leaves the
      handler without any reply;
    - what the environment supplies to a handler (the verified e-mail, the
      clock, the identifier the driver generates) is an argument of it.

    The store is the driver's as its documentation describes it: [find]
    filters field by field, a field that holds an array matching through
    its elements, [updateOne] and [deleteOne] act on the first match,
    [insertOne] refuses a duplicate [_id] and an array as [_id].  A handler
    is taken as a whole: what two requests do when their database calls
    interleave is stated where it matters ([createUser]).  Field values are
    scalars and arrays; the nested objects a request body may also carry
    are not represented, and numbers are integers. *)

From Stdlib Require Import ZArith Ascii String.
From stdpp Require Import gmap strings list sorting fin_maps pretty.

Local Open Scope string_scope.
#[local] Set Warnings "-register-all".

(** ** Values *)

(** JSON scalars and arrays, plus the two object kinds the server itself
    writes: [ObjectId]s (kept as their 24-digit lower-case hexadecimal
    text) and [Date]s (milliseconds since the epoch). *)
Inductive value : Type :=
  | VUndef
  | VNull
  | VBool (b : bool)
  | VNum (n : Z)
  | VStr (s : string)
  | VOid (h : string)
  | VDate (t : Z)
  | VArr (l : list value).

Fixpoint value_eqb (x y : value) : bool :=
  match x, y with
  | VUndef, VUndef | VNull, VNull => true
  | VBool a, VBool b => bool_decide (a = b)
  | VNum a, VNum b => bool_decide (a = b)
  | VStr a, VStr b => bool_decide (a = b)
  | VOid a, VOid b => bool_decide (a = b)
  | VDate a, VDate b => bool_decide (a = b)
  | VArr l, VArr l' =>
      (fix go (l l' : list value) : bool :=
         match l, l' with
         | [], [] => true
         | a :: l, b :: l' => value_eqb a b && go l l'
         | _, _ => false
         end) l l'
  | _, _ => false
  end.

Lemma value_eqb_eq x y : value_eqb x y = true ↔ x = y.
Proof.
  revert x y. fix IH 1. intros x y.
  destruct x as [| | | | | | |l], y as [| | | | | | |k]; cbn [value_eqb];
    try (clear IH; split; [done|discriminate]);
    try (clear IH; rewrite bool_decide_eq_true; split; congruence);
    try (clear IH; split; reflexivity).
  revert k. induction l as [|a l IHl]; intros [|b k];
    try (split; [done|discriminate]); [done|].
  rewrite andb_true_iff, (IH a b), IHl. split.
  - by intros [-> [= ->]].
  - by intros [= -> ->].
Qed.

#[global] Instance value_eq_dec : EqDecision value.
Proof.
  intros x y. destruct (value_eqb x y) eqn:E; [left|right].
  - by apply value_eqb_eq.
  - intros H. apply value_eqb_eq in H. congruence.
Defined.

Definition is_array (v : value) : bool :=
  match v with VArr _ => true | _ => false end.

(** JavaScript truthiness. *)
Definition truthy (v : value) : bool :=
  match v with
  | VUndef | VNull => false
  | VBool b => b
  | VNum n => negb (n =? 0)%Z
  | VStr s => negb (String.eqb s "")
  | VOid _ | VDate _ | VArr _ => true
  end.

(** [a || b]. *)
Definition js_or (a b : value) : value := if truthy a then a else b.

(** The driver writes [undefined] as [null]. *)
Definition to_bson (v : value) : value :=
  match v with VUndef => VNull | _ => v end.

(** [x != null]: what the driver asks of [_id] before it generates one. *)
Definition not_nullish (v : value) : bool :=
  match v with VUndef | VNull => false | _ => true end.

(** ** Documents *)

Abbreviation doc := (gmap string value).

(** Property read [d.k]: [undefined] when the key is absent. *)
Definition get (d : doc) (k : string) : value := default VUndef (d !! k).

(** ** Strings: [toUpperCase], [slice(-n)], hexadecimal digits *)

Definition in_range (lo hi : nat) (a : ascii) : bool :=
  (lo <=? nat_of_ascii a)%nat && (nat_of_ascii a <=? hi)%nat.

Definition is_lower (a : ascii) : bool := in_range 97 122 a.
Definition is_upper (a : ascii) : bool := in_range 65 90 a.
Definition is_digit (a : ascii) : bool := in_range 48 57 a.

Definition is_hex (a : ascii) : bool :=
  is_digit a || in_range 97 102 a || in_range 65 70 a.

Definition upper_ascii (a : ascii) : ascii :=
  if is_lower a then ascii_of_nat (nat_of_ascii a - 32) else a.

Definition lower_ascii (a : ascii) : ascii :=
  if is_upper a then ascii_of_nat (nat_of_ascii a + 32) else a.

Fixpoint string_map (f : ascii → ascii) (s : string) : string :=
  match s with
  | EmptyString => EmptyString
  | String a s' => String (f a) (string_map f s')
  end.

Fixpoint string_forallb (f : ascii → bool) (s : string) : bool :=
  match s with
  | EmptyString => true
  | String a s' => f a && string_forallb f s'
  end.

(** [s.toUpperCase()] and [s.toLowerCase()] on ASCII text. *)
Definition toUpperCase (s : string) : string := string_map upper_ascii s.
Definition toLowerCase (s : string) : string := string_map lower_ascii s.

Fixpoint string_drop (n : nat) (s : string) : string :=
  match n, s with
  | O, _ => s
  | S n', String _ s' => string_drop n' s'
  | S _, EmptyString => EmptyString
  end.

(** [s.slice(-n)] for a positive [n]: the last [n] characters, the whole
    of a shorter string. *)
Definition slice_last (n : nat) (s : string) : string :=
  string_drop (String.length s - n) s.

(** ** ObjectId *)

(** [new ObjectId(s)] on a string: accepted when [s] is 24 hexadecimal
    digits (either case; the identifier is the same), refused with an
    exception otherwise. *)
Definition ObjectId (s : string) : option string :=
  if (String.length s =? 24)%nat && string_forallb is_hex s
  then Some (toLowerCase s) else None.

(** [h] is the text of an identifier as [toString] prints it: 24 digits
    that [ObjectId] reads back unchanged. *)
Definition is_oid (h : string) : Prop := ObjectId h = Some h.

(** [String(v)] as [Array.prototype.join] uses it on an element:
    [undefined] and [null] give the empty string. *)
Fixpoint js_join (date_toString : Z → string) (v : value) : string :=
  match v with
  | VUndef | VNull => ""
  | VBool b => if b then "true" else "false"
  | VNum n => pretty n
  | VStr s => s
  | VOid h => h
  | VDate t => date_toString t
  | VArr l => String.concat "," (map (js_join date_toString) l)
  end.

(** [v.toString()] as the handlers use it on [_id]: a [TypeError] (here
    [None]) on [undefined] and [null].  How the engine prints a [Date] is
    left to the parameter [date_toString]. *)
Definition js_toString (date_toString : Z → string) (v : value) : option string :=
  match v with
  | VUndef | VNull => None
  | VBool b => Some (if b then "true" else "false")
  | VNum n => Some (pretty n)
  | VStr s => Some s
  | VOid h => Some h
  | VDate t => Some (date_toString t)
  | VArr l => Some (String.concat "," (map (js_join date_toString) l))
  end.

(** [new ObjectId(x)] on a value read from a document: a well-formed
    string names that identifier, an identifier is copied, [undefined],
    [null] and numbers make the driver generate a new identifier, anything
    else is refused with an exception. *)
Inductive oid_outcome : Type :=
  | OidThrows
  | OidNew
  | OidIs (h : string).

Definition new_ObjectId (x : value) : oid_outcome :=
  match x with
  | VStr s => match ObjectId s with Some h => OidIs h | None => OidThrows end
  | VOid h => OidIs h
  | VUndef | VNull | VNum _ => OidNew
  | VBool _ | VDate _ | VArr _ => OidThrows
  end.

(** ** Collections *)

(** A filter document [{ k1: v1, ..., kn: vn }] whose values are scalars or
    arrays. *)
Definition query : Type := list (string * value).

(** [{ k: v }] on a field: the field holds [v], or holds an array with [v]
    among its elements. *)
Definition field_matches (stored v : value) : bool :=
  bool_decide (stored = v) ||
  match stored with VArr l => bool_decide (v ∈ l) | _ => false end.

(** The fields the handlers filter on that hold a scalar in every document
    they are looked up in: the database takes no array as [_id], and the
    other three are written by the handlers themselves, from the verified
    e-mail or a constant and after the request body where one is spread
    into the document.  On these the filter is equality. *)
Definition scalar_fields : list string :=
  ["_id"; "email"; "librarianEmail"; "paymentStatus"].

Definition field_test (k : string) (stored v : value) : bool :=
  if bool_decide (k ∈ scalar_fields) then bool_decide (stored = v)
  else field_matches stored v.

Definition matches (q : query) (d : doc) : bool :=
  forallb (λ kv, field_test kv.1 (get d kv.1) kv.2) q.

(** The filter as the database reads it on any document. *)
Definition matches_any (q : query) (d : doc) : bool :=
  forallb (λ kv, field_matches (get d kv.1) kv.2) q.

(** [stored] is [v] or an array that holds [v]. *)
Definition holds (stored v : value) : Prop :=
  stored = v ∨ ∃ l, stored = VArr l ∧ v ∈ l.

Lemma field_matches_holds stored v : field_matches stored v = true ↔ holds stored v.
Proof.
  unfold field_matches, holds. rewrite orb_true_iff, bool_decide_eq_true.
  split; (intros [?|H]; [by left|right]).
  - destruct stored; try done. apply bool_decide_eq_true in H. eauto.
  - destruct H as (l & -> & H). by apply bool_decide_eq_true.
Qed.

#[global] Instance holds_dec stored v : Decision (holds stored v).
Proof.
  destruct (field_matches stored v) eqn:E; [left|right].
  - by apply field_matches_holds.
  - intros H. apply field_matches_holds in H. congruence.
Defined.

(** [k] is one of the [scalar_fields]; [k] is a field a request body
    reaches. *)
Class Scalar (k : string) : Prop :=
  scalar : bool_decide (k ∈ scalar_fields) = true.
Class Open (k : string) : Prop :=
  open : bool_decide (k ∈ scalar_fields) = false.

#[global] Instance scalar_id : Scalar "_id" := eq_refl.
#[global] Instance scalar_email : Scalar "email" := eq_refl.
#[global] Instance scalar_librarianEmail : Scalar "librarianEmail" := eq_refl.
#[global] Instance scalar_paymentStatus : Scalar "paymentStatus" := eq_refl.
#[global] Instance open_status : Open "status" := eq_refl.
#[global] Instance open_bookId : Open "bookId" := eq_refl.

(** [c.find(q).toArray()] *)
Definition find (q : query) (c : list doc) : list doc :=
  filter (λ d, matches q d) c.

(** [c.findOne(q)] *)
Definition findOne (q : query) (c : list doc) : option doc := head (find q c).

(** The update document [{ $set: { k1: v1, ... } }] applied to [d]. *)
Definition apply_set (upd : list (string * value)) (d : doc) : doc :=
  foldr (λ kv acc, <[kv.1 := to_bson kv.2]> acc) d upd.

(** The value an update document holds for a field, if it sets the field. *)
Fixpoint assoc (upd : list (string * value)) (k : string) : option value :=
  match upd with
  | [] => None
  | kv :: upd' => if decide (kv.1 = k) then Some kv.2 else assoc upd' k
  end.


(** [c.updateOne(q, { $set: upd })]: the new collection and [modifiedCount],
    which is 0 when nothing matches and when the matched document already
    holds the values. *)
Fixpoint updateOne (q : query) (upd : list (string * value)) (c : list doc)
  : list doc * nat :=
  match c with
  | [] => ([], 0)
  | d :: c' =>
      if matches q d
      then (apply_set upd d :: c', if decide (apply_set upd d = d) then 0 else 1)
      else let r := updateOne q upd c' in (d :: r.1, r.2)
  end.

(** [c.deleteOne(q)]: the new collection and [deletedCount]. *)
Fixpoint deleteOne (q : query) (c : list doc) : list doc * nat :=
  match c with
  | [] => ([], 0)
  | d :: c' =>
      if matches q d then (c', 1)
      else let r := deleteOne q c' in (d :: r.1, r.2)
  end.

(** [c.deleteMany(q)] *)
Definition deleteMany (q : query) (c : list doc) : list doc :=
  filter (λ d, ¬ matches q d) c.

(** [c.insertOne(d)].  A document without [_id] (or with a [null] one)
    receives the [ObjectId] the driver generates, [fresh]; an array as
    [_id] and a duplicate [_id] are refused with an exception ([None]).
    The result is the new collection and [insertedId]. *)
Definition insertOne (fresh : string) (d : doc) (c : list doc)
  : option (list doc * value) :=
  let id := if not_nullish (get d "_id") then get d "_id" else VOid fresh in
  if is_array id then None
  else if decide (Exists (λ d', get d' "_id" = id) c) then None
  else Some ((c ++ [<["_id" := id]> d])%list, id).

(** The order [sort] puts values in: by BSON type first (null and missing
    fields, then numbers, strings, arrays, identifiers, booleans, dates),
    then by value; strings by their bytes.  (Arrays inside an array are
    not told apart.) *)
Definition bson_rank (v : value) : Z :=
  match v with
  | VUndef | VNull => 1
  | VNum _ => 2
  | VStr _ => 3
  | VArr _ => 4
  | VOid _ => 5
  | VBool _ => 6
  | VDate _ => 7
  end.

Definition bson_leb (a b : value) : bool :=
  match a, b with
  | VNum x, VNum y => (x <=? y)%Z
  | VStr x, VStr y => String.leb x y
  | VOid x, VOid y => String.leb x y
  | VBool x, VBool y => implb x y
  | VDate x, VDate y => (x <=? y)%Z
  | _, _ => (bson_rank a <=? bson_rank b)%Z
  end.

(** What a descending [sort] compares a field by: the field itself, and
    for a field that holds an array its largest element ([None], below
    everything, for the empty array). *)
Definition sort_key (v : value) : option value :=
  match v with
  | VArr [] => None
  | VArr (x :: l) => Some (foldr (λ y m, if bson_leb m y then y else m) x l)
  | _ => Some v
  end.

Definition key_leb (a b : option value) : bool :=
  match a, b with
  | None, _ => true
  | Some _, None => false
  | Some x, Some y => bson_leb x y
  end.

(** [a] may stand before [b] under [sort({ k: -1 })]. *)
Definition descending (k : string) (a b : doc) : Prop :=
  key_leb (sort_key (get b k)) (sort_key (get a k)).

#[global] Instance descending_dec k a b : Decision (descending k a b).
Proof. unfold descending. apply _. Defined.

(** [c.find(q).sort({ k: -1 }).limit(n).toArray()] *)
Definition find_sort_limit (q : query) (k : string) (n : nat) (c : list doc)
  : list doc :=
  take n (merge_sort (descending k) (find q c)).

(** ** The store and the replies *)

Record store : Type := Store {
  users : list doc;
  books : list doc;
  orders : list doc
}.

Definition set_users (st : store) (us : list doc) : store :=
  {| users := us; books := books st; orders := orders st |}.
Definition set_books (st : store) (bs : list doc) : store :=
  {| users := users st; books := bs; orders := orders st |}.
Definition set_orders (st : store) (os : list doc) : store :=
  {| users := users st; books := books st; orders := os |}.

Definition empty_store : store := {| users := []; books := []; orders := [] |}.

(** The JSON bodies the handlers send. *)
Inductive body : Type :=
  | BSuccess (ok : bool)          (* { success: ok } *)
  | BMessage (m : string)         (* { message: m } *)
  | BFailure (m : string)         (* { success: false, message: m } *)
  | BUser (u : doc)               (* { success: true, user: u } *)
  | BBooks (bs : list doc)        (* { success: true, books: bs } *)
  | BInvoices (l : list doc)      (* { success: true, invoices: l } *)
  | BInserted (id : value).       (* { success: true, id } *)

(** [res.status(code).send(b)], or an exception nobody catches. *)
Inductive reply : Type :=
  | Send (code : nat) (b : body)
  | Threw.

(** [count > 0], as in [result.modifiedCount > 0]. *)
Definition gt0 (n : nat) : bool := (0 <? n)%nat.

Definition Forbidden : reply := Send 403 (BMessage "Forbidden").

(** [const u = await users.findOne({ email }); !(!u || u.role !== role)] *)
Definition has_role (st : store) (email role : string) : bool :=
  match findOne [("email", VStr email)] (users st) with
  | Some u => bool_decide (get u "role" = VStr role)
  | None => false
  end.

(** [books.findOne({ _id: new ObjectId(x) })]: [None] when the constructor
    throws, [Some None] when no book has the identifier. *)
Definition findById (x : value) (c : list doc) : option (option doc) :=
  match new_ObjectId x with
  | OidThrows => None
  | OidNew => Some None
  | OidIs h => Some (findOne [("_id", VOid h)] c)
  end.

(** ** The route handlers *)

Section Server.

(** How the engine prints a [Date]. *)
Variable date_toString : Z → string.

(** The allow-lists: the literals ['admin@gmail.com'] and
    ['librarian@gmail.com'] in [index.js], the environment's
    [ADMIN_EMAILS] and [LIBRARIAN_EMAILS] in the later variant. *)
Variable adminEmails : list string.
Variable librarianEmails : list string.

(** [{ ...d, _id: d._id.toString() }] *)
Definition with_string_id (d : doc) : option doc :=
  s ← js_toString date_toString (get d "_id"); Some (<["_id" := VStr s]> d).

(** [POST /auth/firebase-login].  [name] and [picture] are what
    [const { name, picture } = req.body.user || {}] binds. *)
Definition newUser (email uid : string) (name picture : value) (now : Z) : doc :=
  let role :=
    if bool_decide (email ∈ adminEmails) then "admin"
    else if bool_decide (email ∈ librarianEmails) then "librarian"
    else "user" in
  {[ "uid" := VStr uid;
     "email" := VStr email;
     "name" := js_or name (VStr "Anonymous");
     "profileImage" := js_or picture (VStr "");
     "role" := VStr role;
     "createdAt" := VDate now ]}.

Definition login_failed : reply := Send 500 (BFailure "Login failed").

Definition loginOrCreate (st : store) (email uid : string) (name picture : value)
    (now : Z) (fresh : string) : store * reply :=
  match findOne [("email", VStr email)] (users st) with
  | None =>
      match insertOne fresh (newUser email uid name picture now) (users st) with
      | Some (us, id) =>
          match js_toString date_toString id with
          | Some s =>
              (set_users st us,
               Send 200 (BUser (<["_id" := VStr s]> (newUser email uid name picture now))))
          | None => (set_users st us, login_failed)
          end
      | None => (st, login_failed)
      end
  | Some user =>
      match with_string_id user with
      | Some u => (st, Send 200 (BUser u))
      | None => (st, login_failed)
      end
  end.

(** [POST /books].  ([index.js] sends the driver's result object where
    this variant sends [{ success: true, id }]; so does its [POST /orders].) *)
Definition publishCandidate (st : store) (email : string) (fields : doc)
    (now : Z) (fresh : string) : store * reply :=
  let book := <["librarianEmail" := VStr email]> (<["createdAt" := VDate now]> fields) in
  match insertOne fresh book (books st) with
  | Some (bs, id) => (set_books st bs, Send 200 (BInserted id))
  | None => (st, Threw)
  end.

(** [GET /books].  ([index.js] wraps the body in [try] and answers 500
    where this variant throws.) *)
Definition listPublished (st : store) : reply :=
  match mapM with_string_id (find [("status", VStr "published")] (books st)) with
  | Some l => Send 200 (BBooks l)
  | None => Threw
  end.

(** [GET /books/latest] *)
Definition listLatestPublished (st : store) : reply :=
  match mapM with_string_id
          (find_sort_limit [("status", VStr "published")] "createdAt" 6 (books st)) with
  | Some l => Send 200 (BBooks l)
  | None => Threw
  end.

(** [POST /orders]: [{ ...req.body, email, status: "pending",
    paymentStatus: "unpaid", createdAt: new Date() }]. *)
Definition newOrder (email : string) (fields : doc) (now : Z) : doc :=
  <["createdAt" := VDate now]>
    (<["paymentStatus" := VStr "unpaid"]>
       (<["status" := VStr "pending"]>
          (<["email" := VStr email]> fields))).

Definition place (st : store) (email : string) (fields : doc)
    (now : Z) (fresh : string) : store * reply :=
  match insertOne fresh (newOrder email fields now) (orders st) with
  | Some (os, id) => (set_orders st os, Send 200 (BInserted id))
  | None => (st, Threw)
  end.

(** [PUT /users/cancel/:id] and [PUT /users/pay/:id] are the same text but
    for the [$set] document. *)
Definition update_own_order (upd : list (string * value))
    (st : store) (email id : string) : store * reply :=
  match ObjectId id with
  | None => (st, Threw)
  | Some h =>
      match findOne [("_id", VOid h)] (orders st) with
      | None => (st, Send 403 (BSuccess false))
      | Some order =>
          if decide (get order "email" = VStr email) then
            let r := updateOne [("_id", VOid h)] upd (orders st) in
            (set_orders st r.1, Send 200 (BSuccess (gt0 r.2)))
          else (st, Send 403 (BSuccess false))
      end
  end.

Definition cancel : store → string → string → store * reply :=
  update_own_order [("status", VStr "cancelled")].

Definition pay : store → string → string → store * reply :=
  update_own_order [("paymentStatus", VStr "paid")].

(** [GET /users/invoices] *)
Definition invoice (st : store) (o : doc) : option doc :=
  book ← findById (get o "bookId") (books st);
  s ← js_toString date_toString (get o "_id");
  Some ({[ "_id" := VStr s;
           "paymentId" := VStr (toUpperCase (slice_last 8 s));
           "bookTitle" :=
             js_or (js_or (from_option (λ b, get b "title") VUndef book)
                          (get o "bookTitle"))
                   (VStr "Unknown");
           "amount" := js_or (get o "price") (VNum 0);
           "date" := get o "createdAt" ]} : doc).

Definition paid_orders (st : store) (email : string) : list doc :=
  find [("email", VStr email); ("paymentStatus", VStr "paid")] (orders st).

Definition invoicesFor (st : store) (email : string) : reply :=
  match mapM (invoice st) (paid_orders st email) with
  | Some l => Send 200 (BInvoices l)
  | None => Threw
  end.

(** [PATCH /librarian/orders/:id/status] *)
Definition validStatus : list value :=
  [VStr "pending"; VStr "shipped"; VStr "delivered"].

Definition updateStatus (st : store) (email id : string) (status : value)
  : store * reply :=
  if negb (has_role st email "librarian") then (st, Forbidden)
  else if negb (bool_decide (status ∈ validStatus))
  then (st, Send 400 (BFailure "Invalid status"))
  else
    match ObjectId id with
    | None => (st, Threw)
    | Some h =>
        match findOne [("_id", VOid h)] (orders st) with
        | None => (st, Send 404 (BFailure "Order not found"))
        | Some order =>
            match findById (get order "bookId") (books st) with
            | None => (st, Threw)
            | Some None => (st, Threw) (* [book.librarianEmail] on [null] *)
            | Some (Some book) =>
                if decide (get book "librarianEmail" = VStr email) then
                  let r := updateOne [("_id", VOid h)] [("status", status)] (orders st) in
                  (set_orders st r.1, Send 200 (BSuccess (gt0 r.2)))
                else (st, Forbidden)
            end
        end
    end.

(** [PATCH /admin/users/:id/role] *)
Definition updateRole (st : store) (email id : string) (role : value)
  : store * reply :=
  if negb (has_role st email "admin") then (st, Forbidden)
  else
    match ObjectId id with
    | None => (st, Threw)
    | Some h =>
        let r := updateOne [("_id", VOid h)] [("role", role)] (users st) in
        (set_users st r.1, Send 200 (BSuccess (gt0 r.2)))
    end.

(** [PATCH /admin/books/:id/status] *)
Definition setStatus (st : store) (email id : string) (status : value)
  : store * reply :=
  if negb (has_role st email "admin") then (st, Forbidden)
  else
    match ObjectId id with
    | None => (st, Threw)
    | Some h =>
        let r := updateOne [("_id", VOid h)] [("status", status)] (books st) in
        (set_books st r.1, Send 200 (BSuccess (gt0 r.2)))
    end.

(** [DELETE /admin/books/:id]: the orders go first, under the raw text of
    the parameter; the [ObjectId] is built after that. *)
Definition deleteCascade (st : store) (email id : string) : store * reply :=
  if negb (has_role st email "admin") then (st, Forbidden)
  else
    let st1 := set_orders st (deleteMany [("bookId", VStr id)] (orders st)) in
    match ObjectId id with
    | None => (st1, Threw)
    | Some h =>
        let r := deleteOne [("_id", VOid h)] (books st1) in
        (set_books st1 r.1, Send 200 (BSuccess (gt0 r.2)))
    end.

(** [PATCH /librarian/books/:id].  [fields] are the names the handler
    takes out of [req.body] and sets.  (This is the route where it is
    registered inside [run()].  [index.js] registers its librarian routes
    after [run()], where [users], [books] and [orders] are not in scope:
    there the handler ends in a [ReferenceError] on every request.) *)
Definition updateOwned_fields : list string :=
  ["status"; "title"; "author"; "price"; "description"].

Definition updateOwned (fields : list string)
    (st : store) (email id : string) (reqBody : doc) : store * reply :=
  if negb (has_role st email "librarian") then (st, Forbidden)
  else
    match ObjectId id with
    | None => (st, Threw)
    | Some h =>
        let r := updateOne [("_id", VOid h); ("librarianEmail", VStr email)]
                   (map (λ k, (k, get reqBody k)) fields) (books st) in
        (set_books st r.1, Send 200 (BSuccess (gt0 r.2)))
    end.


End Server.

(** ** A login in two steps *)

(** What [POST /auth/firebase-login] does after its lookup has found no
    user: the rest of [loginOrCreate].  The lookup and the insert are two
    awaited calls, and the handler of another request may run between
    them. *)
Definition createUser (date_toString : Z → string) (adminEmails librarianEmails : list string)
    (st : store) (email uid : string) (name picture : value)
    (now : Z) (fresh : string) : store * reply :=
  match insertOne fresh (newUser adminEmails librarianEmails email uid name picture now)
          (users st) with
  | Some (us, id) =>
      match js_toString date_toString id with
      | Some s =>
          (set_users st us,
           Send 200 (BUser (<["_id" := VStr s]>
                              (newUser adminEmails librarianEmails email uid name picture now))))
      | None => (set_users st us, login_failed)
      end
  | None => (st, login_failed)
  end.

(** ** The other routes *)

(** What a route answers whose success reply is
    [{ success: true, <key>: a }]: that payload, or any other reply. *)
Inductive outcome (A : Type) : Type :=
  | Data (a : A)
  | Reply (r : reply).

Arguments Data {A} a.
Arguments Reply {A} r.

(** [c.find({ k: { $in: vs } }).toArray()]: the field holds one of [vs],
    or an array with one of [vs] among its elements. *)
Definition find_in (k : string) (vs : list value) (c : list doc) : list doc :=
  filter (λ d, existsb (field_test k (get d k)) vs) c.

Section Reads.

Variable date_toString : Z → string.

(** [res.send({ success: true, <key>: c.map(d => ({ ...d, _id: d._id.toString() })) })] *)
Definition send_all (c : list doc) : outcome (list doc) :=
  match mapM (with_string_id date_toString) c with
  | Some l => Data l
  | None => Reply Threw
  end.

(** [GET /books/:id].  ([index.js] wraps the body in [try] and answers 500
    where this variant throws.) *)
Definition getById (st : store) (id : string) : outcome doc :=
  match ObjectId id with
  | None => Reply Threw
  | Some h =>
      match findOne [("_id", VOid h)] (books st) with
      | None => Reply (Send 404 (BFailure "Not found"))
      | Some book =>
          match with_string_id date_toString book with
          | Some b => Data b
          | None => Reply Threw
          end
      end
  end.

(** [GET /users/my-orders] *)
Definition listMine (st : store) (email : string) : outcome (list doc) :=
  send_all (find [("email", VStr email)] (orders st)).

(** [GET /librarian/orders], in the variant that sends the orders as they
    are stored: the texts of the identifiers of the librarian's books,
    then the orders whose [bookId] is one of them.  (The later variant
    adds a book title and a user name to each order.) *)
Definition listForLibrarian (st : store) (email : string) : outcome (list doc) :=
  if negb (has_role st email "librarian") then Reply Forbidden
  else
    match mapM (λ b, js_toString date_toString (get b "_id"))
               (find [("librarianEmail", VStr email)] (books st)) with
    | None => Reply Threw
    | Some ids => send_all (find_in "bookId" (VStr <$> ids) (orders st))
    end.

(** [GET /admin/users] *)
Definition listUsers (st : store) (email : string) : outcome (list doc) :=
  if negb (has_role st email "admin") then Reply Forbidden
  else send_all (users st).

(** [GET /librarian/my-books] *)
Definition listMyBooks (st : store) (email : string) : outcome (list doc) :=
  if negb (has_role st email "librarian") then Reply Forbidden
  else send_all (find [("librarianEmail", VStr email)] (books st)).

(** [GET /wishlist]: each item of the user with the book it names, [null]
    ([None]) when no book has the identifier. *)
Definition wishlist_entry (st : store) (w : doc) : option (doc * option doc) :=
  book ← findById (get w "bookId") (books st);
  w' ← with_string_id date_toString w;
  match book with
  | None => Some (w', None)
  | Some b => b' ← with_string_id date_toString b; Some (w', Some b')
  end.

Definition wishlist_list (st : store) (ws : list doc) (email : string)
  : outcome (list (doc * option doc)) :=
  match mapM (wishlist_entry st) (find [("email", VStr email)] ws) with
  | Some l => Data l
  | None => Reply Threw
  end.

End Reads.

(** The wishlist routes write to a collection of their own, [ws]. *)

(** [POST /wishlist] *)
Definition wishlist_item (email : string) (bookId : value) (now : Z) : doc :=
  {[ "email" := VStr email; "bookId" := bookId; "createdAt" := VDate now ]}.

Definition wishlist_add (ws : list doc) (email : string) (bookId : value)
    (now : Z) (fresh : string) : list doc * reply :=
  if negb (truthy bookId) then (ws, Send 400 (BFailure "BookId required"))
  else
    match findOne [("email", VStr email); ("bookId", bookId)] ws with
    | Some _ => (ws, Send 400 (BFailure "Already in wishlist"))
    | None =>
        match insertOne fresh (wishlist_item email bookId now) ws with
        | Some (ws', id) => (ws', Send 200 (BInserted id))
        | None => (ws, Threw)
        end
    end.


(** ** The token check *)

(** [s.split(c)] *)
Fixpoint split_on (c : ascii) (s : string) : list string :=
  match s with
  | EmptyString => [EmptyString]
  | String a s' =>
      if decide (a = c) then EmptyString :: split_on c s'
      else match split_on c s' with
           | x :: r => String a x :: r
           | [] => [String a EmptyString]
           end
  end.

Definition space : ascii := ascii_of_nat 32.

Definition no_space (s : string) : bool :=
  string_forallb (λ a, negb (bool_decide (a = space))) s.

(** What the middleware leaves to the route: nothing, after a 401 whose
    body is [{ message: "Unauthorized" }] with the verifier's error
    message when there is one, or the decoded e-mail and user id. *)
Inductive auth_result : Type :=
  | Unauthorized (error : option string)
  | Authenticated (email uid : string).

Section Auth.

(** [admin.auth().verifyIdToken]: the identity provider's answer to a
    token ([None] for [undefined]), an error message or the decoded
    e-mail and user id. *)
Variable verifyIdToken : option string → string + (string * string).

(** [verifyFBToken], on the [Authorization] header of the request. *)
Definition verifyFBToken (authorization : option string) : auth_result :=
  match authorization with
  | None => Unauthorized None
  | Some header =>
      if decide (header = "") then Unauthorized None
      else
        match verifyIdToken (split_on space header !! 1%nat) with
        | inl message => Unauthorized (Some message)
        | inr (email, uid) => Authenticated email uid
        end
  end.

End Auth.

(** The book [POST /books] hands to [insertOne]. *)
Definition new_book (email : string) (fields : doc) (now : Z) : doc :=
  <["librarianEmail" := VStr email]> (<["createdAt" := VDate now]> fields).

(** ** Requests and reachable stores *)

(** The requests that write to the three collections, each with what the
    environment supplies for it.  (The read-only routes leave the store as
    it is; the wishlist routes write to a fourth collection only.) *)
Inductive request : Type :=
  | Login (email uid : string) (name picture : value) (now : Z) (fresh : string)
  | PublishCandidate (email : string) (fields : doc) (now : Z) (fresh : string)
  | Place (email : string) (fields : doc) (now : Z) (fresh : string)
  | Cancel (email id : string)
  | Pay (email id : string)
  | UpdateStatus (email id : string) (status : value)
  | UpdateRole (email id : string) (role : value)
  | SetStatus (email id : string) (status : value)
  | DeleteCascade (email id : string)
  | UpdateOwned (email id : string) (reqBody : doc).

(** The verified e-mail a request comes with. *)
Definition principal (r : request) : string :=
  match r with
  | Login email _ _ _ _ _ | PublishCandidate email _ _ _ | Place email _ _ _
  | Cancel email _ | Pay email _ | UpdateStatus email _ _ | UpdateRole email _ _
  | SetStatus email _ _ | DeleteCascade email _ | UpdateOwned email _ _ => email
  end.

Definition handle (date_toString : Z → string) (adminEmails librarianEmails : list string)
    (r : request) (st : store) : store * reply :=
  match r with
  | Login email uid name picture now fresh =>
      loginOrCreate date_toString adminEmails librarianEmails
        st email uid name picture now fresh
  | PublishCandidate email fields now fresh => publishCandidate st email fields now fresh
  | Place email fields now fresh => place st email fields now fresh
  | Cancel email id => cancel st email id
  | Pay email id => pay st email id
  | UpdateStatus email id status => updateStatus st email id status
  | UpdateRole email id role => updateRole st email id role
  | SetStatus email id status => setStatus st email id status
  | DeleteCascade email id => deleteCascade st email id
  | UpdateOwned email id reqBody => updateOwned updateOwned_fields st email id reqBody
  end.

(** The stores the server can be in after requests that all satisfy [P],
    each handled as a whole and one after the other, starting from empty
    collections. *)
Inductive reachable_by (date_toString : Z → string)
    (adminEmails librarianEmails : list string) (P : request → Prop)
  : store → Prop :=
  | reach_empty : reachable_by date_toString adminEmails librarianEmails P empty_store
  | reach_step st r :
      reachable_by date_toString adminEmails librarianEmails P st →
      P r →
      reachable_by date_toString adminEmails librarianEmails P
        (handle date_toString adminEmails librarianEmails r st).1.

(** The roles of the data model. *)
Definition valid_role (v : value) : Prop :=
  v = VStr "user" ∨ v = VStr "librarian" ∨ v = VStr "admin".

#[global] Instance valid_role_dec v : Decision (valid_role v).
Proof. unfold valid_role. apply _. Defined.

Definition roles_ok (st : store) : Prop :=
  Forall (λ u, valid_role (get u "role")) (users st).

(** The statuses the handlers write to an order: [place] "pending",
    [updateStatus] one of [validStatus], [cancel] "cancelled"; and the
    payment statuses: [place] "unpaid", [pay] "paid". *)
Definition order_statuses : list value :=
  [VStr "pending"; VStr "shipped"; VStr "delivered"; VStr "cancelled"].

Definition payment_statuses : list value := [VStr "unpaid"; VStr "paid"].

Definition orders_ok (st : store) : Prop :=
  Forall (λ o, get o "status" ∈ order_statuses ∧
               get o "paymentStatus" ∈ payment_statuses) (orders st).

(** Every request to change a role asks for a role of the data model. *)
Definition role_updates_valid (r : request) : Prop :=
  match r with
  | UpdateRole _ _ role => valid_role role
  | _ => True
  end.

(** No document of the collection holds an array under one of the fields
    [ks]. *)
Definition scalar_at (ks : list string) (c : list doc) : Prop :=
  Forall (λ d, Forall (λ k, is_array (get d k) = false) ks) c.

(** The [scalar_fields] of each collection hold scalars. *)
Definition server_fields_scalar (st : store) : Prop :=
  scalar_at ["_id"; "email"] (users st) ∧
  scalar_at ["_id"; "librarianEmail"] (books st) ∧
  scalar_at ["_id"; "email"; "paymentStatus"] (orders st).

(** The filter [q] reads none of the [scalar_fields] but [ks]. *)
Definition reads_only (ks : list string) (q : query) : Prop :=
  ∀ kv, kv ∈ q → kv.1 ∈ scalar_fields → kv.1 ∈ ks.

(** Identifiers are unique within each collection. *)
Definition unique_ids (c : list doc) : Prop :=
  NoDup (map (λ d, get d "_id") c).

(** Every document has an identifier. *)
Definition has_ids (c : list doc) : Prop :=
  Forall (λ d, not_nullish (get d "_id") = true) c.

Definition wf_coll (c : list doc) : Prop := unique_ids c ∧ has_ids c.

Definition wf_store (st : store) : Prop :=
  wf_coll (users st) ∧ wf_coll (books st) ∧ wf_coll (orders st).

(** No document of the collection has the identifier yet. *)
Definition fresh_in (h : string) (c : list doc) : Prop :=
  Forall (λ d, get d "_id" ≠ VOid h) c.

(** What an invoice says of the order it is made from: the text of the
    order's identifier, its last 8 characters in upper case as the payment
    identifier, the order's price as the amount (0 for a missing or falsy
    one), the order's creation time as the date. *)
Definition invoice_of (date_toString : Z → string) (o inv : doc) : Prop :=
  ∃ s, js_toString date_toString (get o "_id") = Some s ∧
       get inv "_id" = VStr s ∧
       get inv "paymentId" = VStr (toUpperCase (slice_last 8 s)) ∧
       get inv "amount" = js_or (get o "price") (VNum 0) ∧
       (∀ n, get o "price" = VNum n → get inv "amount" = VNum n) ∧
       get inv "date" = get o "createdAt".

(** What the filter [{ status: "published" }] selects. *)
(** A [bookId] the [ObjectId] constructor takes: the text of an
    identifier, or none at all ([undefined], [null]), for which it makes a
    new identifier. *)
Definition bookId_ok (v : value) : Prop :=
  match v with
  | VStr s => is_Some (ObjectId s)
  | VOid _ | VUndef | VNull => True
  | _ => False
  end.

Definition published (b : doc) : Prop := holds (get b "status") (VStr "published").

(** No book under the identifier belongs to the librarian [email]: there is
    none at all, or it carries another [librarianEmail]. *)
Definition foreign_book (st : store) (email h : string) : Prop :=
  Forall (λ b, get b "_id" = VOid h → get b "librarianEmail" ≠ VStr email) (books st).


(** ** Example data *)

(** The allow-lists of [index.js]. *)
Definition static_adminEmails : list string := ["admin@gmail.com"].
Definition static_librarianEmails : list string := ["librarian@gmail.com"].

(** A stand-in for the engine's [Date] printer. *)
Definition example_date_toString (t : Z) : string := pretty t.

Definition oid1 : string := "64b7f3a2c9e1d5a0b3f4e501".
Definition oid2 : string := "64b7f3a2c9e1d5a0b3f4e502".
Definition oid3 : string := "64b7f3a2c9e1d5a0b3f4e503".
Definition oid4 : string := "64b7f3a2c9e1d5a0b3f4e504".
Definition oid5 : string := "64b7f3a2c9e1d5a0b3f4e505".
Definition oid6 : string := "64b7f3a2c9e1d5a0b3f4e506".

(** The store after five requests: the administrator and the librarian of
    the allow-lists log in, the librarian publishes a book, a reader
    orders it at the price 20, and somebody else creates a draft. *)
Definition example_requests : list request :=
  [ Login "admin@gmail.com" "uid-a" VUndef VUndef 1000 oid1;
    Login "librarian@gmail.com" "uid-l" (VStr "Lina") VUndef 2000 oid2;
    PublishCandidate "librarian@gmail.com"
      {[ "title" := VStr "B"; "price" := VNum 20; "status" := VStr "published" ]}
      3000 oid3;
    Place "reader@gmail.com" {[ "bookId" := VStr oid3; "price" := VNum 20 ]} 4000 oid4;
    PublishCandidate "other@gmail.com"
      {[ "title" := VStr "D"; "price" := VNum 5; "status" := VStr "draft" ]}
      5000 oid5 ].

Definition run (rs : list request) (st : store) : store :=
  foldl (λ st r,
           (handle example_date_toString static_adminEmails static_librarianEmails r st).1)
        st rs.

Definition example_store : store := run example_requests empty_store.

(** Somebody posts a book whose status is an array. *)
Definition array_status_requests : list request :=
  [ PublishCandidate "other@gmail.com"
      {[ "title" := VStr "A"; "status" := VArr [VStr "draft"; VStr "published"] ]}
      1000 oid1 ].

(** A reader orders under a book identifier that is none, and pays. *)
Definition bad_bookId_requests : list request :=
  [ Place "reader@gmail.com" {[ "bookId" := VStr "abc"; "price" := VNum 20 ]} 1000 oid1;
    Pay "reader@gmail.com" oid1 ].

(** An administrator gives themselves a role outside the data model. *)
Definition role_escape_requests : list request :=
  [ Login "admin@gmail.com" "uid-a" VUndef VUndef 1000 oid1;
    UpdateRole "admin@gmail.com" oid1 (VStr "superuser") ].

(** A librarian logs in and a reader orders a book nobody has created. *)
Definition orphan_requests : list request :=
  [ Login "librarian@gmail.com" "uid-l" VUndef VUndef 1000 oid1;
    Place "reader@gmail.com" {[ "bookId" := VStr "ffffffffffffffffffffffff" ]} 2000 oid2 ].

(** The draft the fifth request stores. *)
Definition example_draft : doc :=
  <["_id" := VOid oid5]>
    (<["librarianEmail" := VStr "other@gmail.com"]>
       (<["createdAt" := VDate 5000]>
          {[ "title" := VStr "D"; "price" := VNum 5; "status" := VStr "draft" ]})).

(** The book the third request stores. *)
Definition example_book : doc :=
  <["_id" := VOid oid3]>
    (<["librarianEmail" := VStr "librarian@gmail.com"]>
       (<["createdAt" := VDate 3000]>
          {[ "title" := VStr "B"; "price" := VNum 20; "status" := VStr "published" ]})).

(** Every identifier of the collection is an [ObjectId] the driver made. *)
Definition oid_ids (c : list doc) : Prop :=
  Forall (λ d, ∃ h, get d "_id" = VOid h ∧ is_oid h) c.

(** No two users carry the same e-mail. *)
Definition emails_unique (st : store) : Prop :=
  NoDup (map (λ u, get u "email") (users st)).

(** A wishlist with one item, the reader's, for the published book. *)
Definition example_wishlist : list doc :=
  (wishlist_add [] "reader@gmail.com" (VStr oid3) 7000 oid6).1.

(** An identity provider that knows one token. *)
Definition example_verifyIdToken (token : option string) : string + (string * string) :=
  if decide (token = Some "good") then inr ("reader@gmail.com", "uid-r")
  else inl "Decoding Firebase ID token failed".

(** The order the fourth request stores. *)
Definition example_order : doc :=
  <["_id" := VOid oid4]>
    (newOrder "reader@gmail.com" {[ "bookId" := VStr oid3; "price" := VNum 20 ]} 4000).

(** * Facts about values and strings *)

Lemma string_map_length f s : String.length (string_map f s) = String.length s.
Proof. induction s as [|a s IH]; simpl; congruence. Qed.

Lemma string_drop_length n s :
  String.length (string_drop n s) = String.length s - n.
Proof.
  revert s. induction n as [|n IH]; intros [|a s]; simpl; auto.
Qed.

Lemma slice_last_length n s :
  (n ≤ String.length s)%nat → String.length (slice_last n s) = n.
Proof. intros Hn. unfold slice_last. rewrite string_drop_length. lia. Qed.

Lemma ObjectId_length s h : ObjectId s = Some h → String.length h = 24.
Proof.
  unfold ObjectId. destruct (String.length s =? 24)%nat eqn:E; simpl; [|done].
  destruct (string_forallb is_hex s); [|done]. intros [= <-].
  unfold toLowerCase. rewrite string_map_length. by apply Nat.eqb_eq.
Qed.

Lemma upper_ascii_not_lower a : is_lower (upper_ascii a) = false.
Proof.
  unfold upper_ascii. destruct (is_lower a) eqn:E; [|done].
  unfold is_lower, in_range in *.
  apply andb_true_iff in E as [E1 E2].
  apply Nat.leb_le in E1. apply Nat.leb_le in E2.
  rewrite nat_ascii_embedding by lia.
  apply andb_false_iff. left. apply Nat.leb_gt. lia.
Qed.

(** An upper-cased string holds no lower-case letter, so upper-casing it
    again changes nothing. *)
Lemma toUpperCase_no_lower s :
  string_forallb (λ a, negb (is_lower a)) (toUpperCase s) = true.
Proof.
  unfold toUpperCase. induction s as [|a s IH]; simpl; [done|].
  by rewrite upper_ascii_not_lower, IH.
Qed.

(** * Facts about the collections *)

Arguments matches : simpl never.
Arguments get : simpl never.
Arguments apply_set : simpl never.

Lemma get_insert_eq (d : doc) k v : get (<[k := v]> d) k = v.
Proof. unfold get. by rewrite lookup_insert_eq. Qed.

Lemma get_insert_ne (d : doc) k k' v : k ≠ k' → get (<[k := v]> d) k' = get d k'.
Proof. intros Hne. unfold get. by rewrite lookup_insert_ne. Qed.

Lemma holds_scalar stored v : is_array stored = false → holds stored v ↔ stored = v.
Proof.
  intros Hs. split; [|by left]. intros [?|(l & -> & _)]; done.
Qed.

Lemma field_test_scalar k `{!Scalar k} stored v :
  field_test k stored v = bool_decide (stored = v).
Proof. unfold field_test. by rewrite scalar. Qed.

Lemma field_test_open k `{!Open k} stored v :
  field_test k stored v = field_matches stored v.
Proof. unfold field_test. by rewrite open. Qed.

Lemma matches_step k v q d :
  matches ((k, v) :: q) d = field_test k (get d k) v && matches q d.
Proof. done. Qed.

Lemma matches_cons k `{!Scalar k} v q d :
  matches ((k, v) :: q) d = true ↔ get d k = v ∧ matches q d = true.
Proof.
  rewrite matches_step, andb_true_iff, field_test_scalar, bool_decide_eq_true by done.
  done.
Qed.

Lemma matches_1 k `{!Scalar k} v d : matches [(k, v)] d = true ↔ get d k = v.
Proof. rewrite (matches_cons k). split; [by intros [? _]|done]. Qed.

Lemma matches_1_Is_true k `{!Scalar k} v d : matches [(k, v)] d ↔ get d k = v.
Proof. rewrite Is_true_true. apply (matches_1 k). Qed.

Lemma matches_cons_open k `{!Open k} v q d :
  matches ((k, v) :: q) d = true ↔ holds (get d k) v ∧ matches q d = true.
Proof.
  rewrite matches_step, andb_true_iff, field_test_open, field_matches_holds by done.
  done.
Qed.

Lemma matches_1_open k `{!Open k} v d : matches [(k, v)] d = true ↔ holds (get d k) v.
Proof. rewrite (matches_cons_open k). split; [by intros [? _]|done]. Qed.

Lemma matches_1_open_Is_true k `{!Open k} v d : matches [(k, v)] d ↔ holds (get d k) v.
Proof. rewrite Is_true_true. apply (matches_1_open k). Qed.

(** On documents whose [scalar_fields] hold no array, [matches] is the
    database's filter. *)
Lemma matches_matches_any q d :
  (∀ kv, kv ∈ q → kv.1 ∈ scalar_fields → is_array (get d kv.1) = false) →
  matches q d = matches_any q d.
Proof.
  unfold matches, matches_any. induction q as [|[k v] q IH]; intros Hq; [done|].
  cbn [forallb]. rewrite IH by (intros kv Hkv; apply Hq; by right).
  f_equal. unfold field_test. cbn [fst snd].
  destruct (bool_decide (k ∈ scalar_fields)) eqn:Hk; [|done].
  apply bool_decide_eq_true in Hk.
  specialize (Hq (k, v) ltac:(left) Hk). cbn [fst] in Hq.
  unfold field_matches. destruct (get d k); try done; by rewrite orb_false_r.
Qed.

Lemma elem_of_find q c d : d ∈ find q c ↔ matches q d = true ∧ d ∈ c.
Proof. unfold find. rewrite list_elem_of_filter, Is_true_true. done. Qed.

Lemma find_app q c1 c2 : find q (c1 ++ c2)%list = (find q c1 ++ find q c2)%list.
Proof. apply filter_app. Qed.

Lemma findOne_Some q c d :
  findOne q c = Some d → d ∈ c ∧ matches q d = true.
Proof.
  unfold findOne. intros H. apply head_Some_elem_of in H.
  apply elem_of_find in H. tauto.
Qed.

Lemma findOne_None q c :
  findOne q c = None ↔ ∀ d, d ∈ c → matches q d = false.
Proof.
  unfold findOne. rewrite head_None. split.
  - intros H d Hd. destruct (matches q d) eqn:E; [|done].
    assert (d ∈ find q c) as Hin by (by apply elem_of_find).
    rewrite H in Hin. by apply not_elem_of_nil in Hin.
  - intros H. destruct (find q c) as [|d l] eqn:E; [done|].
    assert (d ∈ find q c) as Hin by (rewrite E; left).
    apply elem_of_find in Hin as [Hm Hd]. rewrite (H d Hd) in Hm. done.
Qed.

(** The shape of a collection around the document [findOne] returns. *)
Lemma findOne_split q c d :
  findOne q c = Some d →
  ∃ c1 c2, c = (c1 ++ d :: c2)%list ∧ matches q d = true ∧
           ∀ d', d' ∈ c1 → matches q d' = false.
Proof.
  unfold findOne, find. induction c as [|x c IH]; [done|].
  rewrite filter_cons. destruct (decide (matches q x)) as [Hx|Hx]; simpl.
  - intros [= ->]. exists [], c. split; [done|]. split; [by apply Is_true_true|].
    intros d' Hd'. by apply not_elem_of_nil in Hd'.
  - intros H. destruct (IH H) as (c1 & c2 & -> & Hm & Hc1).
    exists (x :: c1), c2. split; [done|]. split; [done|].
    intros d' [Heq|Hd']%elem_of_cons; [subst d'|by apply Hc1].
    destruct (matches q x); [exfalso; apply Hx; exact I|done].
Qed.

Lemma findOne_app_r q c1 c2 :
  findOne q c1 = None → findOne q (c1 ++ c2)%list = findOne q c2.
Proof.
  unfold findOne. rewrite find_app, head_None. by intros ->.
Qed.

Lemma findOne_middle q c1 d c2 :
  (∀ d', d' ∈ c1 → matches q d' = false) → matches q d = true →
  findOne q (c1 ++ d :: c2)%list = Some d.
Proof.
  intros Hc1 Hd. rewrite findOne_app_r by (by apply findOne_None).
  unfold findOne, find. rewrite filter_cons_True by (by apply Is_true_true).
  done.
Qed.

(** What [$set] leaves in a field. *)
Lemma lookup_apply_set upd d k :
  apply_set upd d !! k =
    match assoc upd k with Some v => Some (to_bson v) | None => d !! k end.
Proof.
  unfold apply_set. induction upd as [|[k' v'] upd IH]; simpl; [done|].
  destruct (decide (k' = k)) as [->|Hne].
  - by rewrite lookup_insert_eq.
  - by rewrite lookup_insert_ne.
Qed.

Lemma get_apply_set upd d k :
  get (apply_set upd d) k =
    match assoc upd k with Some v => to_bson v | None => get d k end.
Proof. unfold get. rewrite lookup_apply_set. by destruct (assoc upd k). Qed.



Lemma updateOne_None q upd c :
  findOne q c = None → updateOne q upd c = (c, 0).
Proof.
  rewrite findOne_None. induction c as [|d c IH]; intros H; simpl; [done|].
  rewrite (H d) by left. rewrite IH; [done|].
  intros d' Hd'. apply H. by right.
Qed.

Lemma updateOne_split q upd c1 d c2 :
  (∀ d', d' ∈ c1 → matches q d' = false) → matches q d = true →
  updateOne q upd (c1 ++ d :: c2)%list =
    ((c1 ++ apply_set upd d :: c2)%list,
     if decide (apply_set upd d = d) then 0 else 1).
Proof.
  intros Hc1 Hd. induction c1 as [|x c1 IH]; simpl.
  - by rewrite Hd.
  - rewrite (Hc1 x) by left. rewrite IH; [done|].
    intros d' Hd'. apply Hc1. by right.
Qed.

(** [modifiedCount > 0] only when a document matched the filter. *)
Lemma updateOne_modified q upd c :
  gt0 (updateOne q upd c).2 = true → ∃ d, d ∈ c ∧ matches q d = true.
Proof.
  destruct (findOne q c) as [d|] eqn:E.
  - intros _. exists d. by apply findOne_Some.
  - by rewrite (updateOne_None _ _ _ E).
Qed.


(** Documents the filter does not match are left as they were. *)
Lemma updateOne_elem_of q upd c d :
  d ∈ (updateOne q upd c).1 →
  d ∈ c ∨ ∃ d0, d0 ∈ c ∧ matches q d0 = true ∧ d = apply_set upd d0.
Proof.
  destruct (findOne q c) as [d0|] eqn:E.
  - destruct (findOne_split _ _ _ E) as (c1 & c2 & -> & Hd & Hc1).
    rewrite (updateOne_split _ _ _ _ _ Hc1 Hd). simpl.
    rewrite !elem_of_app, !elem_of_cons.
    intros [?|[->|?]]; [by left; left| |by left; right; right].
    right. exists d0. rewrite elem_of_app, elem_of_cons. tauto.
  - rewrite (updateOne_None _ _ _ E). by left.
Qed.

Lemma updateOne_ids q upd c :
  assoc upd "_id" = None →
  map (λ d, get d "_id") (updateOne q upd c).1 = map (λ d, get d "_id") c.
Proof.
  intros Hid. induction c as [|d c IH]; simpl; [done|].
  destruct (matches q d); simpl.
  - by rewrite get_apply_set, Hid.
  - by rewrite IH.
Qed.

(** ** Identifiers are unique in a collection *)

Lemma filter_all {A} (P : A → Prop) `{∀ x, Decision (P x)} (l : list A) :
  (∀ x, x ∈ l → P x) → filter P l = l.
Proof.
  induction l as [|x l IH]; intros Hl; [done|].
  rewrite filter_cons_True by (apply Hl; left).
  rewrite IH; [done|]. intros y Hy. apply Hl. by right.
Qed.

Lemma deleteOne_unique v c :
  unique_ids c →
  (deleteOne [("_id", v)] c).1 = filter (λ d, get d "_id" ≠ v) c.
Proof.
  unfold unique_ids. induction c as [|d c IH]; simpl; [done|].
  rewrite NoDup_cons. intros [Hd Hc].
  destruct (matches [("_id", v)] d) eqn:E.
  - apply (matches_1 "_id") in E. simpl.
    rewrite filter_cons_False by (intros Hne; by apply Hne).
    symmetry. apply filter_all. intros x Hx Hxv. apply Hd.
    rewrite E, <- Hxv. apply list_elem_of_fmap. by exists x.
  - simpl. rewrite filter_cons_True.
    + by rewrite IH.
    + intros Hv. apply (matches_1 "_id") in Hv. congruence.
Qed.

Lemma deleteOne_count q c :
  gt0 (deleteOne q c).2 = true ↔ ∃ d, d ∈ c ∧ matches q d = true.
Proof.
  induction c as [|d c IH]; simpl.
  - split; [done|]. intros (d & Hd & _). by apply not_elem_of_nil in Hd.
  - destruct (matches q d) eqn:E; simpl.
    + split; [|done]. intros _. exists d. split; [left|done].
    + rewrite IH. split.
      * intros (x & Hx & Hm). exists x. split; [by right|done].
      * intros (x & [->|Hx]%elem_of_cons & Hm); [congruence|]. by exists x.
Qed.

Lemma unique_ids_filter (P : doc → Prop) `{∀ x, Decision (P x)} c :
  unique_ids c → unique_ids (filter P c).
Proof.
  unfold unique_ids. induction c as [|d c IH]; [done|].
  simpl. rewrite NoDup_cons. intros [Hd Hc]. rewrite filter_cons.
  destruct (decide (P d)); [|by apply IH].
  simpl. apply NoDup_cons. split; [|by apply IH].
  intros Hin. apply Hd. apply list_elem_of_fmap in Hin as (x & Hx & Hin).
  apply list_elem_of_fmap. exists x. split; [done|].
  apply list_elem_of_filter in Hin. tauto.
Qed.

Lemma unique_ids_updateOne q upd c :
  assoc upd "_id" = None → unique_ids c → unique_ids (updateOne q upd c).1.
Proof. intros Hid. unfold unique_ids. by rewrite updateOne_ids. Qed.

Lemma insertOne_Some fresh d c c' id :
  insertOne fresh d c = Some (c', id) →
  id = (if not_nullish (get d "_id") then get d "_id" else VOid fresh) ∧
  c' = (c ++ [<["_id" := id]> d])%list ∧
  ∀ d', d' ∈ c → get d' "_id" ≠ id.
Proof.
  unfold insertOne.
  set (i := if not_nullish (get d "_id") then get d "_id" else VOid fresh).
  destruct (is_array i); [done|].
  destruct (decide _) as [|Hn]; [done|]. intros [= <- <-].
  split; [done|]. split; [done|]. intros d' Hd' Hid. apply Hn.
  apply Exists_exists. by exists d'.
Qed.

Lemma insertOne_not_array fresh d c c' id :
  insertOne fresh d c = Some (c', id) → is_array id = false.
Proof.
  unfold insertOne.
  set (i := if not_nullish (get d "_id") then get d "_id" else VOid fresh).
  destruct (is_array i) eqn:E; [done|].
  destruct (decide _); [done|]. by intros [= <- <-].
Qed.

Lemma insertOne_fresh fresh d c :
  not_nullish (get d "_id") = false →
  (∀ d', d' ∈ c → get d' "_id" ≠ VOid fresh) →
  insertOne fresh d c = Some ((c ++ [<["_id" := VOid fresh]> d])%list, VOid fresh).
Proof.
  intros Hd Hc. unfold insertOne. rewrite Hd. cbn [is_array].
  destruct (decide _) as [He|]; [|done].
  apply Exists_exists in He as (d' & Hd' & Hid). by destruct (Hc d' Hd').
Qed.

Lemma unique_ids_insertOne fresh d c c' id :
  insertOne fresh d c = Some (c', id) → unique_ids c → unique_ids c'.
Proof.
  intros (-> & -> & Hc)%insertOne_Some Hu. unfold unique_ids in *.
  rewrite map_app. simpl. apply NoDup_app. split; [done|].
  split; [|apply NoDup_singleton].
  intros v Hv [->|[]%not_elem_of_nil]%elem_of_cons.
  apply list_elem_of_fmap in Hv as (d' & Hv & Hd').
  apply (Hc d' Hd'). by rewrite get_insert_eq in Hv.
Qed.

(** * The users' own orders: pay and cancel *)







(** * Login and provisioning *)

Ltac get_simpl :=
  repeat first [rewrite get_insert_eq | rewrite get_insert_ne by done].

Lemma get_singleton k v : get ({[ k := v ]} : doc) k = v.
Proof. unfold get. by rewrite lookup_singleton_eq. Qed.

Lemma newUser_fields admins libs email uid name picture now :
  let u := newUser admins libs email uid name picture now in
  get u "_id" = VUndef ∧
  get u "uid" = VStr uid ∧
  get u "email" = VStr email ∧
  get u "role" = VStr (if bool_decide (email ∈ admins) then "admin"
                       else if bool_decide (email ∈ libs) then "librarian"
                       else "user") ∧
  get u "name" = (if truthy name then name else VStr "Anonymous") ∧
  get u "profileImage" = (if truthy picture then picture else VStr "") ∧
  get u "createdAt" = VDate now.
Proof.
  unfold newUser. repeat split; get_simpl; try apply get_singleton; done.
Qed.

(** C1: a first login (no user holds the e-mail) appends exactly one user
    to the collection, whose role is "admin" for an e-mail of the admin
    allow-list, else "librarian" for one of the librarian allow-list, else
    "user", whose name is "Anonymous" and whose image is the empty string
    unless the request gives (truthy) ones, and replies with that record;
    a repeat login changes nothing in the store and replies with the
    record the collection already holds. *)
Theorem loginOrCreate_spec dts admins libs st email uid name picture now fresh :
  (Forall (λ u, get u "email" ≠ VStr email) (users st) →
   fresh_in fresh (users st) →
   let u := newUser admins libs email uid name picture now in
   loginOrCreate dts admins libs st email uid name picture now fresh
     = (set_users st (users st ++ [<["_id" := VOid fresh]> u])%list,
        Send 200 (BUser (<["_id" := VStr fresh]> u))) ∧
   get u "email" = VStr email ∧
   get u "role" = VStr (if bool_decide (email ∈ admins) then "admin"
                        else if bool_decide (email ∈ libs) then "librarian"
                        else "user") ∧
   get u "name" = (if truthy name then name else VStr "Anonymous") ∧
   get u "profileImage" = (if truthy picture then picture else VStr "")) ∧
  (Exists (λ u, get u "email" = VStr email) (users st) →
   ∃ user, user ∈ users st ∧ get user "email" = VStr email ∧
     (loginOrCreate dts admins libs st email uid name picture now fresh).1 = st ∧
     ∀ h, get user "_id" = VOid h →
       (loginOrCreate dts admins libs st email uid name picture now fresh).2
         = Send 200 (BUser (<["_id" := VStr h]> user))).
Proof.
  split.
  - intros Hno Hfresh u.
    destruct (newUser_fields admins libs email uid name picture now)
      as (Hid & _ & He & Hr & Hn & Hp & _).
    split; [|done].
    unfold loginOrCreate.
    assert (findOne [("email", VStr email)] (users st) = None) as ->.
    { apply findOne_None. intros d Hd. rewrite Forall_forall in Hno.
      destruct (matches _ d) eqn:E; [|done].
      apply (matches_1 "email") in E. by destruct (Hno d Hd). }
    rewrite insertOne_fresh; [done| |by rewrite <- Forall_forall].
    by rewrite Hid.
  - intros Hex. apply Exists_exists in Hex as (u0 & Hu0 & He0).
    destruct (findOne [("email", VStr email)] (users st)) as [user|] eqn:E.
    + pose proof (findOne_Some _ _ _ E) as [Hin Hm]. apply (matches_1 "email") in Hm.
      exists user. split; [done|]. split; [done|].
      unfold loginOrCreate. rewrite E. unfold with_string_id.
      split.
      * by destruct (js_toString dts (get user "_id")).
      * intros h ->. done.
    + rewrite findOne_None in E. specialize (E u0 Hu0).
      assert (matches [("email", VStr email)] u0 = true) by (by apply (matches_1 "email")).
      congruence.
Qed.

(** * Placing an order *)

Lemma newOrder_fields email fields now :
  let o := newOrder email fields now in
  get o "_id" = get fields "_id" ∧
  get o "email" = VStr email ∧
  get o "status" = VStr "pending" ∧
  get o "paymentStatus" = VStr "unpaid" ∧
  get o "createdAt" = VDate now.
Proof. unfold newOrder. repeat split; by get_simpl. Qed.

(** Fields the handler does not set are the request's. *)
Lemma newOrder_other email fields now k :
  k ≠ "createdAt" → k ≠ "paymentStatus" → k ≠ "status" → k ≠ "email" →
  get (newOrder email fields now) k = get fields k.
Proof. intros. unfold newOrder. by rewrite !get_insert_ne. Qed.

Lemma place_fresh st email fields now fresh :
  not_nullish (get fields "_id") = false →
  fresh_in fresh (orders st) →
  place st email fields now fresh
    = (set_orders st (orders st ++ [<["_id" := VOid fresh]> (newOrder email fields now)])%list,
       Send 200 (BInserted (VOid fresh))).
Proof.
  intros Hnull Hfresh. unfold place.
  destruct (newOrder_fields email fields now) as (Hid & _).
  rewrite insertOne_fresh; [done|by rewrite Hid|by rewrite <- Forall_forall].
Qed.

(** C5: the order [place] stores has [status = "pending"],
    [paymentStatus = "unpaid"], the verified e-mail and the creation time
    of the request, whatever the request body holds under these names;
    nothing else in the store changes.  The order is stored whenever the
    generated identifier is new and the body brings no [_id] of its own. *)
Theorem place_spec st email fields now fresh :
  (∀ st' r, place st email fields now fresh = (st', r) →
     (r = Threw ∧ st' = st) ∨
     ∃ o, r = Send 200 (BInserted (get o "_id")) ∧
          st' = set_orders st (orders st ++ [o])%list ∧
          get o "status" = VStr "pending" ∧
          get o "paymentStatus" = VStr "unpaid" ∧
          get o "email" = VStr email ∧
          get o "createdAt" = VDate now) ∧
  (not_nullish (get fields "_id") = false →
   fresh_in fresh (orders st) →
   place st email fields now fresh
     = (set_orders st (orders st ++ [<["_id" := VOid fresh]> (newOrder email fields now)])%list,
        Send 200 (BInserted (VOid fresh)))).
Proof.
  destruct (newOrder_fields email fields now) as (Hid & He & Hs & Hp & Hc).
  split.
  - intros st' r. unfold place.
    destruct (insertOne _ _ _) as [[os id]|] eqn:E.
    + intros [= <- <-]. right.
      apply insertOne_Some in E as (_ & -> & _).
      eexists. split; [by rewrite get_insert_eq|]. split; [done|].
      by get_simpl.
    + intros [= <- <-]. by left.
  - apply place_fresh.
Qed.

(** * Books: cascade delete and the librarian's edit *)

Lemma set_books_same st : set_books st (books st) = st.
Proof. by destruct st. Qed.



(** [deleteCascade] reports success exactly when a book was there. *)
Lemma deleteCascade_reply st email id h :
  has_role st email "admin" = true → ObjectId id = Some h →
  (deleteCascade st email id).2
    = Send 200 (BSuccess (bool_decide (Exists (λ b, get b "_id" = VOid h) (books st)))).
Proof.
  intros Hadmin Hid. unfold deleteCascade. rewrite Hadmin, Hid.
  cbn [negb snd set_orders books]. do 2 f_equal. apply eq_true_iff_eq.
  rewrite deleteOne_count, bool_decide_eq_true, Exists_exists.
  by setoid_rewrite (matches_1 "_id").
Qed.

(** C4, as amended: for a librarian, a well-formed identifier (24
    hexadecimal digits) and a book that is not theirs (no book under the
    identifier, or one with another [librarianEmail]), [updateOwned]
    replies [{ success: false }] and the store is as it was; a reply
    [{ success: true }] comes only when a book under the identifier with
    the librarian's e-mail is there. *)
Theorem updateOwned_spec fields st email id reqBody :
  (∀ h, has_role st email "librarian" = true →
        ObjectId id = Some h →
        foreign_book st email h →
        updateOwned fields st email id reqBody = (st, Send 200 (BSuccess false))) ∧
  (∀ st', updateOwned fields st email id reqBody = (st', Send 200 (BSuccess true)) →
        ∃ h b, ObjectId id = Some h ∧ b ∈ books st ∧
               get b "_id" = VOid h ∧ get b "librarianEmail" = VStr email).
Proof.
  split.
  - intros h Hrole Hid Hforeign. unfold updateOwned. rewrite Hrole, Hid. cbn [negb].
    rewrite updateOne_None; [by rewrite set_books_same|].
    apply findOne_None. intros d Hd.
    unfold foreign_book in Hforeign. rewrite Forall_forall in Hforeign.
    destruct (matches _ d) eqn:E; [|done].
    apply (matches_cons "_id") in E as [E1 E2]. apply (matches_1 "librarianEmail") in E2.
    by destruct (Hforeign d Hd E1).
  - intros st'. unfold updateOwned.
    destruct (negb _); [done|].
    destruct (ObjectId id) as [h|]; [|done].
    intros [= _ Hok]. apply updateOne_modified in Hok as (b & Hb & Hm).
    apply (matches_cons "_id") in Hm as [E1 E2]. apply (matches_1 "librarianEmail") in E2.
    by exists h, b.
Qed.

(** * The librarian's status update *)

(** What [updateStatus] answers, branch by branch. *)
Lemma updateStatus_not_librarian st email id status :
  has_role st email "librarian" = false →
  updateStatus st email id status = (st, Forbidden).
Proof. intros H. unfold updateStatus. by rewrite H. Qed.

Lemma updateStatus_invalid st email id status :
  has_role st email "librarian" = true → status ∉ validStatus →
  updateStatus st email id status = (st, Send 400 (BFailure "Invalid status")).
Proof.
  intros H Hs. unfold updateStatus. rewrite H. cbn [negb].
  by rewrite bool_decide_eq_false_2.
Qed.

Lemma updateStatus_no_order st email id h status :
  has_role st email "librarian" = true → status ∈ validStatus →
  ObjectId id = Some h →
  findOne [("_id", VOid h)] (orders st) = None →
  updateStatus st email id status = (st, Send 404 (BFailure "Order not found")).
Proof.
  intros H Hs Hid Ho. unfold updateStatus. rewrite H. cbn [negb].
  by rewrite bool_decide_eq_true_2, Hid, Ho.
Qed.

Lemma updateStatus_foreign st email id h status order book :
  has_role st email "librarian" = true → status ∈ validStatus →
  ObjectId id = Some h →
  findOne [("_id", VOid h)] (orders st) = Some order →
  findById (get order "bookId") (books st) = Some (Some book) →
  get book "librarianEmail" ≠ VStr email →
  updateStatus st email id status = (st, Forbidden).
Proof.
  intros H Hs Hid Ho Hb Hne. unfold updateStatus. rewrite H. cbn [negb].
  rewrite bool_decide_eq_true_2, Hid, Ho, Hb by done.
  by destruct (decide _).
Qed.

(** The order is there and its book is not: the handler reads
    [librarianEmail] of [null] and throws. *)
Lemma updateStatus_no_book st email id h status order :
  has_role st email "librarian" = true → status ∈ validStatus →
  ObjectId id = Some h →
  findOne [("_id", VOid h)] (orders st) = Some order →
  findById (get order "bookId") (books st) = Some None →
  updateStatus st email id status = (st, Threw).
Proof.
  intros H Hs Hid Ho Hb. unfold updateStatus. rewrite H. cbn [negb].
  by rewrite bool_decide_eq_true_2, Hid, Ho, Hb.
Qed.

(** * The public catalogue *)

Lemma bson_leb_total a b : bson_leb a b = true ∨ bson_leb b a = true.
Proof.
  destruct a, b; cbn; try (by left); try (by right).
  - destruct b, b0; cbn; auto.
  - destruct (Z.leb_spec n n0); [by left|right]. apply Z.leb_le. lia.
  - apply String.leb_total.
  - apply String.leb_total.
  - destruct (Z.leb_spec t t0); [by left|right]. apply Z.leb_le. lia.
Qed.

Lemma key_leb_total a b : key_leb a b = true ∨ key_leb b a = true.
Proof. destruct a, b; cbn; auto using bson_leb_total. Qed.

#[global] Instance descending_total k : Total (descending k).
Proof.
  intros a b. unfold descending.
  destruct (key_leb_total (sort_key (get b k)) (sort_key (get a k))) as [H|H];
    rewrite H; auto.
Qed.

(** Between two dates, [descending] is the order of the clock. *)
Lemma descending_dates k a b ta tb :
  get a k = VDate ta → get b k = VDate tb →
  descending k a b ↔ (tb ≤ ta)%Z.
Proof.
  intros Ha Hb. unfold descending. rewrite Ha, Hb. cbn.
  rewrite Is_true_true. apply Z.leb_le.
Qed.

Lemma HdRel_take {A} (R : relation A) x l n : HdRel R x l → HdRel R x (take n l).
Proof. intros [|y l' Hxy]; destruct n; cbn; by constructor. Qed.

Lemma Sorted_take {A} (R : relation A) l n : Sorted R l → Sorted R (take n l).
Proof.
  intros Hl. revert n. induction Hl as [|x l Hl IH Hx]; intros [|n]; cbn;
    try constructor; [apply IH|by apply HdRel_take].
Qed.

(** A sorted list stays sorted under a field-preserving rewrite of its
    elements. *)
Lemma Sorted_Forall2 {A B} (R : relation A) (R' : relation B) (Q : A → B → Prop) l l' :
  (∀ x y x' y', Q x x' → Q y y' → R x y → R' x' y') →
  Forall2 Q l l' → Sorted R l → Sorted R' l'.
Proof.
  intros HQ HF. induction HF as [|x x' l l' Hx HF IH]; intros Hs; [constructor|].
  apply Sorted_inv in Hs as [Hs Hhd]. constructor; [by apply IH|].
  destruct HF as [|y y' l l' Hy HF]; constructor.
  apply HdRel_inv in Hhd. by eapply HQ.
Qed.

Lemma with_string_id_get dts d d' k :
  with_string_id dts d = Some d' → k ≠ "_id" → get d' k = get d k.
Proof.
  unfold with_string_id. destruct (js_toString dts (get d "_id")); [|done].
  cbn. intros [= <-] Hk. by rewrite get_insert_ne.
Qed.

Lemma with_string_id_is_Some dts d :
  not_nullish (get d "_id") = true → is_Some (with_string_id dts d).
Proof.
  unfold with_string_id. by destruct (get d "_id"); cbn; eauto.
Qed.

Lemma mapM_with_string_id_field dts k (P : value → Prop) l l' :
  k ≠ "_id" →
  mapM (with_string_id dts) l = Some l' →
  Forall (λ d, P (get d k)) l → Forall (λ d, P (get d k)) l'.
Proof.
  intros Hk HF%mapM_Some_1. induction HF as [|x x' l l' Hx HF IH]; [done|].
  rewrite !Forall_cons. intros [Hv Hl]. split; [|by apply IH].
  by rewrite (with_string_id_get _ _ _ _ Hx Hk).
Qed.

Lemma mapM_with_string_id dts k v l l' :
  k ≠ "_id" →
  mapM (with_string_id dts) l = Some l' →
  Forall (λ d, get d k = v) l → Forall (λ d, get d k = v) l'.
Proof. apply (mapM_with_string_id_field dts k (λ x, x = v)). Qed.

Lemma find_published c : Forall published (find [("status", VStr "published")] c).
Proof.
  apply Forall_forall. intros d Hd. apply elem_of_find in Hd as [Hm _].
  by apply (matches_1_open "status") in Hm.
Qed.

(** C7, as amended: every book [listPublished] returns has the status
    "published" or, for a status that is an array, an array that holds
    "published"; [listLatestPublished] returns at most 6 books, all of
    that kind, each no older than the next (by [createdAt], in the order
    [sort] uses).  Both reply whenever every book has an [_id], as is the
    case in every store the server reaches. *)
Theorem listPublished_spec dts st :
  (∀ l, listPublished dts st = Send 200 (BBooks l) → Forall published l) ∧
  (∀ l, listLatestPublished dts st = Send 200 (BBooks l) →
        (length l ≤ 6)%nat ∧ Forall published l ∧
        Sorted (descending "createdAt") l) ∧
  (has_ids (books st) →
   ∃ l l', listPublished dts st = Send 200 (BBooks l) ∧
           listLatestPublished dts st = Send 200 (BBooks l')).
Proof.
  split; [|split].
  - intros l. unfold listPublished.
    destruct (mapM _ _) as [l'|] eqn:E; [|done]. intros [= ->].
    eapply (mapM_with_string_id_field dts "status" (λ x, holds x (VStr "published")));
      [done|exact E|].
    apply find_published.
  - intros l. unfold listLatestPublished, find_sort_limit.
    destruct (mapM _ _) as [l'|] eqn:E; [|done]. intros [= ->].
    split; [|split].
    + apply mapM_Some_1, Forall2_length in E. rewrite <- E, length_take. lia.
    + eapply (mapM_with_string_id_field dts "status" (λ x, holds x (VStr "published")));
        [done|exact E|].
      apply Forall_take. rewrite merge_sort_Permutation. apply find_published.
    + apply mapM_Some_1 in E.
      refine (Sorted_Forall2 (descending "createdAt") _ _ _ _ _ E _).
      * intros x y x' y' Hx Hy. unfold descending.
        by rewrite (with_string_id_get _ _ _ "createdAt" Hx),
                   (with_string_id_get _ _ _ "createdAt" Hy).
      * apply Sorted_take, Sorted_merge_sort. apply _.
  - intros Hids. unfold listPublished, listLatestPublished, find_sort_limit.
    assert (∀ l, l ⊆ books st → is_Some (mapM (with_string_id dts) l)) as Hall.
    { intros l Hl. apply mapM_is_Some. apply Forall_forall. intros d Hd.
      apply with_string_id_is_Some. unfold has_ids in Hids.
      rewrite Forall_forall in Hids.
      apply Hids, Hl, Hd. }
    destruct (Hall (find [("status", VStr "published")] (books st))) as [l ->].
    { intros d Hd. apply elem_of_find in Hd. tauto. }
    destruct (Hall (take 6 (merge_sort (descending "createdAt")
                (find [("status", VStr "published")] (books st))))) as [l' ->].
    { intros d Hd%subseteq_take. rewrite merge_sort_Permutation in Hd.
      apply elem_of_find in Hd. tauto. }
    by exists l, l'.
Qed.

(** * Invoices *)

Lemma elem_of_paid_orders st email o :
  o ∈ paid_orders st email ↔
  o ∈ orders st ∧ get o "email" = VStr email ∧ get o "paymentStatus" = VStr "paid".
Proof.
  unfold paid_orders. rewrite elem_of_find, (matches_cons "email"), (matches_1 "paymentStatus"). tauto.
Qed.

Lemma js_or_number n : js_or (VNum n) (VNum 0) = VNum n.
Proof.
  unfold js_or. cbn. destruct (Z.eqb_spec n 0) as [->|]; done.
Qed.

Lemma invoice_Some dts st o inv :
  invoice dts st o = Some inv → invoice_of dts o inv.
Proof.
  unfold invoice. destruct (findById _ _) as [book|]; [|done]. cbn.
  destruct (js_toString dts (get o "_id")) as [s|] eqn:Hs; [|done]. cbn.
  intros [= <-]. exists s. split; [done|].
  repeat split; get_simpl; try apply get_singleton; try done.
  intros n ->. get_simpl. apply js_or_number.
Qed.

Lemma bookId_ok_accepted v : bookId_ok v → new_ObjectId v ≠ OidThrows.
Proof.
  destruct v as [| | | |s| | |]; cbn; try done. intros [h ->]. done.
Qed.

Lemma invoice_is_Some dts st o :
  bookId_ok (get o "bookId") →
  not_nullish (get o "_id") = true →
  is_Some (invoice dts st o).
Proof.
  intros Hb%bookId_ok_accepted Hid. unfold invoice, findById.
  destruct (new_ObjectId (get o "bookId")); [done|..];
    destruct (get o "_id"); cbn; try done; eauto.
Qed.

(** The order a user places and pays, as it then stands in the store. *)
Lemma place_pay st email fields now fresh :
  not_nullish (get fields "_id") = false →
  is_oid fresh → fresh_in fresh (orders st) →
  (pay (place st email fields now fresh).1 email fresh).1
    = set_orders st
        (orders st ++ [<["paymentStatus" := VStr "paid"]>
                         (<["_id" := VOid fresh]> (newOrder email fields now))])%list.
Proof.
  intros Hnull Hoid Hfresh. rewrite place_fresh by done. cbn [fst].
  destruct (newOrder_fields email fields now) as (_ & He & _).
  set (o := <["_id" := VOid fresh]> (newOrder email fields now)).
  assert (∀ d', d' ∈ orders st → matches [("_id", VOid fresh)] d' = false) as Hc1.
  { intros d' Hd'. unfold fresh_in in Hfresh. rewrite Forall_forall in Hfresh.
    destruct (matches _ d') eqn:E; [|done]. apply (matches_1 "_id") in E.
    by destruct (Hfresh d' Hd'). }
  assert (matches [("_id", VOid fresh)] o = true) as Hm.
  { apply (matches_1 "_id"). unfold o. by rewrite get_insert_eq. }
  unfold pay, update_own_order. rewrite Hoid. cbn [orders set_orders].
  rewrite (findOne_middle _ _ o [] Hc1 Hm).
  destruct (decide _) as [_|Hne].
  - by rewrite (updateOne_split _ _ _ o [] Hc1 Hm).
  - destruct Hne. unfold o. by rewrite get_insert_ne.
Qed.

(** C8, as amended: when [invoicesFor] replies, its invoices are made from
    the orders of the e-mail whose [paymentStatus] is "paid", one invoice
    for each, in their order, and from no other order; an invoice's
    [paymentId] is the last 8 characters of the order identifier in upper
    case and its [amount] is the order's price when that is truthy (every
    number is its own amount), 0 otherwise.  It replies whenever each of
    those orders has an identifier and names its book by the text of an
    identifier (24 hexadecimal digits) or not at all, and it throws when
    one of them has a [bookId] the constructor refuses.  A user with no paid
    order who places such an order of price 20 and pays it gets exactly
    one invoice, of amount 20, whose [paymentId] is 8 characters without a
    lower-case letter: the end of the order identifier. *)
Theorem invoicesFor_spec dts st email :
  (∀ o, o ∈ paid_orders st email ↔
        o ∈ orders st ∧ get o "email" = VStr email ∧
        get o "paymentStatus" = VStr "paid") ∧
  (∀ l, invoicesFor dts st email = Send 200 (BInvoices l) →
        Forall2 (invoice_of dts) (paid_orders st email) l) ∧
  (Forall (λ o, bookId_ok (get o "bookId") ∧
                not_nullish (get o "_id") = true) (paid_orders st email) →
   ∃ l, invoicesFor dts st email = Send 200 (BInvoices l)) ∧
  (∀ fields now fresh,
     paid_orders st email = [] →
     get fields "price" = VNum 20 →
     not_nullish (get fields "_id") = false →
     bookId_ok (get fields "bookId") →
     is_oid fresh → fresh_in fresh (orders st) →
     ∃ inv p,
       invoicesFor dts (pay (place st email fields now fresh).1 email fresh).1 email
         = Send 200 (BInvoices [inv]) ∧
       get inv "amount" = VNum 20 ∧
       get inv "paymentId" = VStr p ∧
       p = toUpperCase (slice_last 8 fresh) ∧
       String.length p = 8 ∧
       string_forallb (λ a, negb (is_lower a)) p = true) ∧
  (∀ o, o ∈ paid_orders st email →
        new_ObjectId (get o "bookId") = OidThrows →
        invoicesFor dts st email = Threw).
Proof.
  split; [apply elem_of_paid_orders|]. split; [|split; [|split]]; cycle 3.
  { intros o Ho Hthrows. unfold invoicesFor.
    destruct (mapM _ _) as [l|] eqn:E; [|done].
    apply mapM_Some_1 in E. apply list_elem_of_lookup in Ho as [i Hi].
    destruct (Forall2_lookup_l _ _ _ i o E Hi) as (inv & _ & Hinv).
    unfold invoice, findById in Hinv. by rewrite Hthrows in Hinv. }
  - intros l. unfold invoicesFor.
    destruct (mapM _ _) as [l'|] eqn:E; [|done]. intros [= ->].
    apply mapM_Some_1 in E. eapply Forall2_impl; [exact E|].
    intros o inv. apply invoice_Some.
  - intros Hok. unfold invoicesFor.
    destruct (mapM _ _) as [l|] eqn:E; [by exists l|].
    apply mapM_None_1, Exists_exists in E as (o & Ho & Hnone).
    rewrite Forall_forall in Hok. destruct (Hok o Ho) as [Hb Hid].
    destruct (invoice_is_Some dts st o Hb Hid) as [inv Hinv]. congruence.
  - intros fields now fresh Hnone Hprice Hnull Hbook Hoid Hfresh.
    set (o := <["paymentStatus" := VStr "paid"]>
                (<["_id" := VOid fresh]> (newOrder email fields now))).
    destruct (newOrder_fields email fields now) as (_ & He & _).
    assert (get o "bookId" = get fields "bookId") as Hob.
    { unfold o. rewrite !get_insert_ne by done. by apply newOrder_other. }
    assert (get o "price" = VNum 20) as Hop.
    { unfold o. rewrite !get_insert_ne by done. by rewrite newOrder_other. }
    assert (get o "_id" = VOid fresh) as Hoi.
    { unfold o. rewrite get_insert_ne by done. by rewrite get_insert_eq. }
    unfold invoicesFor. rewrite place_pay by done.
    unfold paid_orders in *. cbn [orders set_orders].
    rewrite find_app, Hnone. cbn [app].
    unfold find. rewrite filter_cons_True, filter_nil.
    2:{ apply Is_true_true, (matches_cons "email"). split.
        - unfold o. by rewrite !get_insert_ne.
        - apply (matches_1 "paymentStatus"). unfold o. by rewrite get_insert_eq. }
    fold o.
    destruct (invoice_is_Some dts (set_orders st (orders st ++ [o])%list) o) as [inv Hinv].
    { by rewrite Hob. } { by rewrite Hoi. }
    cbn [mapM]. rewrite Hinv. cbn.
    apply invoice_Some in Hinv as (s & Hs & _ & Hpid & _ & Hamount & _).
    rewrite Hoi in Hs. cbn in Hs. injection Hs as <-.
    exists inv, (toUpperCase (slice_last 8 fresh)).
    split; [done|]. split; [by apply Hamount|]. split; [done|]. split; [done|].
    split; [|apply toUpperCase_no_lower].
    unfold toUpperCase. rewrite string_map_length. apply slice_last_length.
    rewrite (ObjectId_length _ _ Hoid). lia.
Qed.

(** * Roles *)

Lemma newUser_role_valid admins libs email uid name picture now :
  valid_role (get (newUser admins libs email uid name picture now) "role").
Proof.
  destruct (newUser_fields admins libs email uid name picture now)
    as (_ & _ & _ & -> & _).
  unfold valid_role. repeat case_bool_decide; auto.
Qed.

(** Provisioning only adds a user whose role is one of the three. *)
Lemma roles_ok_loginOrCreate dts admins libs st email uid name picture now fresh :
  roles_ok st →
  roles_ok (loginOrCreate dts admins libs st email uid name picture now fresh).1.
Proof.
  intros Hok. unfold loginOrCreate.
  destruct (findOne _ _); [by destruct (with_string_id _ _)|].
  destruct (insertOne _ _ _) as [[us id]|] eqn:E; [|done].
  apply insertOne_Some in E as (_ & -> & _).
  assert (roles_ok (set_users st
            (users st ++ [<["_id" := id]> (newUser admins libs email uid name picture now)])%list)).
  { unfold roles_ok. cbn [users set_users]. apply Forall_app. split; [done|].
    apply Forall_singleton. rewrite get_insert_ne by done.
    apply newUser_role_valid. }
  by destruct (js_toString dts id).
Qed.

(** The role update stores the role it is given. *)
Lemma roles_ok_updateRole st email id role :
  valid_role role → roles_ok st → roles_ok (updateRole st email id role).1.
Proof.
  intros Hrole Hok. unfold updateRole.
  destruct (negb _); [done|]. destruct (ObjectId id) as [h|]; [|done].
  unfold roles_ok in *. rewrite Forall_forall in *.
  cbn [fst users set_users]. intros u Hu.
  apply updateOne_elem_of in Hu as [Hu|(d0 & _ & _ & ->)]; [by apply Hok|].
  rewrite get_apply_set. cbn [assoc fst snd].
  destruct (decide _) as [_|]; [|done].
  unfold valid_role in *. by destruct Hrole as [->|[->| ->]]; cbn; auto.
Qed.

(** No other request writes to the users. *)
Lemma handle_users dts admins libs r st :
  match r with
  | Login _ _ _ _ _ _ | UpdateRole _ _ _ => True
  | _ => users (handle dts admins libs r st).1 = users st
  end.
Proof.
  destruct r; try done; cbn [handle];
    unfold publishCandidate, place, cancel, pay, update_own_order,
      updateStatus, setStatus, deleteCascade, updateOwned;
    repeat case_match; done.
Qed.

(** C9, as the code has it: the role of a new user is one of "user",
    "librarian" and "admin", and the role update stores the role of the
    request as it comes; so in every store reached through requests whose
    role updates ask for one of the three, every user has one of the
    three. *)
Theorem roles_ok_reachable dts admins libs st :
  reachable_by dts admins libs role_updates_valid st → roles_ok st.
Proof.
  induction 1 as [|st r Hreach IH Hr].
  - apply Forall_nil_2.
  - pose proof (handle_users dts admins libs r st) as Hsame.
    destruct r; try (unfold roles_ok; rewrite Hsame; exact IH).
    + by apply roles_ok_loginOrCreate.
    + by apply roles_ok_updateRole.
Qed.

(** * Identifiers stay unique *)

Lemma wf_coll_insertOne fresh d c c' id :
  insertOne fresh d c = Some (c', id) → wf_coll c → wf_coll c'.
Proof.
  intros E [Hu Hi]. split; [by eapply unique_ids_insertOne|].
  apply insertOne_Some in E as (-> & -> & _).
  apply Forall_app. split; [done|]. apply Forall_singleton.
  rewrite get_insert_eq. by destruct (not_nullish (get d "_id")) eqn:E.
Qed.

Lemma wf_coll_updateOne q upd c :
  assoc upd "_id" = None → wf_coll c → wf_coll (updateOne q upd c).1.
Proof.
  intros Hid [Hu Hi]. split; [by apply unique_ids_updateOne|].
  unfold has_ids in *. rewrite Forall_forall in *. intros d Hd.
  apply updateOne_elem_of in Hd as [Hd|(d0 & Hd0 & _ & ->)]; [by apply Hi|].
  rewrite get_apply_set, Hid. by apply Hi.
Qed.

Lemma wf_coll_filter (P : doc → Prop) `{∀ x, Decision (P x)} c :
  wf_coll c → wf_coll (filter P c).
Proof.
  intros [Hu Hi]. split; [by apply unique_ids_filter|].
  unfold has_ids in *. rewrite Forall_forall in *. intros d Hd.
  apply list_elem_of_filter in Hd as [_ Hd]. by apply Hi.
Qed.

Lemma wf_coll_deleteOne v c :
  wf_coll c → wf_coll (deleteOne [("_id", v)] c).1.
Proof.
  intros Hc. rewrite deleteOne_unique by apply Hc. by apply wf_coll_filter.
Qed.

Lemma wf_store_handle dts admins libs r st :
  wf_store st → wf_store (handle dts admins libs r st).1.
Proof.
  intros (Hu & Hb & Ho). destruct r; cbn [handle].
  - unfold loginOrCreate. destruct (findOne _ _);
      [by destruct (with_string_id _ _)|].
    destruct (insertOne _ _ _) as [[us id]|] eqn:E; [|done].
    destruct (js_toString dts id); repeat split; cbn; try apply Hb; try apply Ho;
      by eapply wf_coll_insertOne.
  - unfold publishCandidate.
    destruct (insertOne _ _ _) as [[bs id]|] eqn:E; [|done].
    split; [done|]. split; [|done]. by eapply wf_coll_insertOne.
  - unfold place.
    destruct (insertOne _ _ _) as [[os id]|] eqn:E; [|done].
    split; [done|]. split; [done|]. by eapply wf_coll_insertOne.
  - unfold cancel, update_own_order. repeat case_match; try done.
    split; [done|]. split; [done|]. by apply wf_coll_updateOne.
  - unfold pay, update_own_order. repeat case_match; try done.
    split; [done|]. split; [done|]. by apply wf_coll_updateOne.
  - unfold updateStatus. repeat case_match; try done.
    split; [done|]. split; [done|]. by apply wf_coll_updateOne.
  - unfold updateRole. repeat case_match; try done.
    split; [|done]. by apply wf_coll_updateOne.
  - unfold setStatus. repeat case_match; try done.
    split; [done|]. split; [|done]. by apply wf_coll_updateOne.
  - unfold deleteCascade. repeat case_match; try done;
      (split; [done|]); split; cbn;
      first [done | by apply wf_coll_deleteOne | by apply wf_coll_filter].
  - unfold updateOwned. repeat case_match; try done.
    split; [done|]. split; [|done]. by apply wf_coll_updateOne.
Qed.

(** In every store the server reaches, each document has an identifier
    and no two documents of a collection share one. *)
Lemma wf_store_reachable dts admins libs P st :
  reachable_by dts admins libs P st → wf_store st.
Proof.
  induction 1 as [|st r Hreach IH Hr].
  - repeat split; first [apply NoDup_nil_2 | apply Forall_nil_2].
  - by apply wf_store_handle.
Qed.

(** * The statements at concrete stores *)

(** A few evaluations of the model. *)

Example ObjectId_accepts_upper_case :
  ObjectId "64B7F3A2C9E1D5A0B3F4E501" = Some oid1.
Proof. reflexivity. Qed.

Example ObjectId_rejects_short_text : ObjectId "42" = None.
Proof. reflexivity. Qed.

Example paymentId_of_oid4 : toUpperCase (slice_last 8 oid4) = "B3F4E504".
Proof. reflexivity. Qed.

Example example_roles :
  map (λ u, (get u "email", get u "role")) (users example_store)
  = [(VStr "admin@gmail.com", VStr "admin");
     (VStr "librarian@gmail.com", VStr "librarian")].
Proof. vm_compute. reflexivity. Qed.

Example reader_is_a_user :
  get (newUser static_adminEmails static_librarianEmails
         "reader@gmail.com" "uid-r" (VStr "") VNull 0) "role" = VStr "user" ∧
  get (newUser static_adminEmails static_librarianEmails
         "reader@gmail.com" "uid-r" (VStr "") VNull 0) "name" = VStr "Anonymous".
Proof. split; vm_compute; reflexivity. Qed.

Example librarian_ships_own_order :
  (updateStatus example_store "librarian@gmail.com" oid4 (VStr "shipped")).2
    = Send 200 (BSuccess true) ∧
  (updateStatus example_store "librarian@gmail.com" oid4 (VStr "cancelled")).2
    = Send 400 (BFailure "Invalid status") ∧
  (updateStatus example_store "librarian@gmail.com" oid6 (VStr "shipped")).2
    = Send 404 (BFailure "Order not found") ∧
  (updateStatus example_store "admin@gmail.com" oid4 (VStr "shipped")).2
    = Forbidden.
Proof. repeat split; vm_compute; reflexivity. Qed.

Example second_pay_reports_no_change :
  (pay example_store "reader@gmail.com" oid4).2 = Send 200 (BSuccess true) ∧
  (pay (pay example_store "reader@gmail.com" oid4).1 "reader@gmail.com" oid4).2
    = Send 200 (BSuccess false).
Proof. split; vm_compute; reflexivity. Qed.

Example latest_lists_only_the_published_book :
  ∃ b, listLatestPublished example_date_toString example_store
         = Send 200 (BBooks [b]) ∧
       get b "_id" = VStr oid3 ∧ get b "title" = VStr "B".
Proof. eexists. repeat split; vm_compute; reflexivity. Qed.



Lemma reachable_run P rs :
  Forall P rs →
  reachable_by example_date_toString static_adminEmails static_librarianEmails P
    (run rs empty_store).
Proof.
  unfold run. generalize empty_store, (reach_empty example_date_toString
    static_adminEmails static_librarianEmails P).
  induction rs as [|r rs IH]; intros st Hst Hrs; [done|].
  apply Forall_cons in Hrs as [Hr Hrs]. cbn [foldl].
  apply IH; [|done]. by apply reach_step.
Qed.

(** C9 as stated fails: after these two requests the store holds a user
    whose role is "superuser". *)
Lemma roles_not_preserved :
  reachable_by example_date_toString static_adminEmails static_librarianEmails
    (λ _, True) (run role_escape_requests empty_store) ∧
  ¬ roles_ok (run role_escape_requests empty_store).
Proof.
  split.
  - apply reachable_run. by apply Forall_forall.
  - apply (bool_decide_eq_false_1 _). vm_compute. reflexivity.
Qed.

Lemma roles_ok_reachable_witness : roles_ok example_store.
Proof.
  apply (roles_ok_reachable example_date_toString
           static_adminEmails static_librarianEmails).
  apply reachable_run. unfold example_requests.
  repeat (apply Forall_cons; split; [exact I|]). apply Forall_nil_2.
Defined.

(** C3, at an input where it fails: a librarian sets the status of an
    order whose book is not in the store (the order was placed under a
    well-formed identifier no book has).  The handler finds no book, reads
    [librarianEmail] of [null] and throws; no 404 is sent. *)
Theorem updateStatus_missing_book_throws :
  let st := run orphan_requests empty_store in
  has_role st "librarian@gmail.com" "librarian" = true ∧
  (∃ order, findOne [("_id", VOid oid2)] (orders st) = Some order ∧
            findById (get order "bookId") (books st) = Some None) ∧
  updateStatus st "librarian@gmail.com" oid2 (VStr "shipped") = (st, Threw).
Proof.
  split; [by vm_compute|]. split; [|by vm_compute].
  eexists. split; by vm_compute.
Qed.

Lemma loginOrCreate_spec_witness :
  loginOrCreate example_date_toString static_adminEmails static_librarianEmails
    empty_store "librarian@gmail.com" "uid-l" VUndef VUndef 1000 oid1
  = (set_users empty_store
       [<["_id" := VOid oid1]>
          ({[ "uid" := VStr "uid-l"; "email" := VStr "librarian@gmail.com";
              "name" := VStr "Anonymous"; "profileImage" := VStr "";
              "role" := VStr "librarian"; "createdAt" := VDate 1000 ]} : doc)],
     Send 200 (BUser (<["_id" := VStr oid1]>
          ({[ "uid" := VStr "uid-l"; "email" := VStr "librarian@gmail.com";
              "name" := VStr "Anonymous"; "profileImage" := VStr "";
              "role" := VStr "librarian"; "createdAt" := VDate 1000 ]} : doc)))) ∧
  (loginOrCreate example_date_toString static_adminEmails static_librarianEmails
     example_store "librarian@gmail.com" "uid-l" VUndef VUndef 9000 oid6).1
  = example_store.
Proof.
  split.
  - destruct (loginOrCreate_spec example_date_toString static_adminEmails
                static_librarianEmails empty_store "librarian@gmail.com" "uid-l"
                VUndef VUndef 1000 oid1) as [H _].
    destruct H as [-> _]; [apply Forall_nil_2|apply Forall_nil_2|].
    vm_compute. reflexivity.
  - destruct (loginOrCreate_spec example_date_toString static_adminEmails
                static_librarianEmails example_store "librarian@gmail.com" "uid-l"
                VUndef VUndef 9000 oid6) as [_ H].
    destruct H as (user & _ & _ & Hst & _); [|exact Hst].
    apply (bool_decide_eq_true_1 _). vm_compute. reflexivity.
Defined.


(** The original C4 fails for an identifier that is not 24 hexadecimal
    digits: no book has it, and the librarian's request ends in an
    exception where the claim has it answer [{ success: false }]. *)
Lemma updateOwned_malformed_id :
  has_role example_store "librarian@gmail.com" "librarian" = true ∧
  Forall (λ b, js_toString example_date_toString (get b "_id") ≠ Some "not-an-id")
    (books example_store) ∧
  updateOwned updateOwned_fields example_store "librarian@gmail.com" "not-an-id"
    {[ "title" := VStr "mine now" ]}
  = (example_store, Threw).
Proof.
  split; [vm_compute; reflexivity|]. split; [|vm_compute; reflexivity].
  apply (bool_decide_eq_true_1 _). vm_compute. reflexivity.
Qed.

(** The original C7 fails for a book whose status is an array that holds
    "published": [listPublished] returns it. *)
Lemma listPublished_array_status :
  reachable_by example_date_toString static_adminEmails static_librarianEmails
    (λ _, True) (run array_status_requests empty_store) ∧
  ∃ b, listPublished example_date_toString (run array_status_requests empty_store)
         = Send 200 (BBooks [b]) ∧
       get b "status" = VArr [VStr "draft"; VStr "published"] ∧
       get b "status" ≠ VStr "published".
Proof.
  split; [apply reachable_run; by apply Forall_forall|].
  eexists. split; [vm_compute; reflexivity|]. split; [vm_compute; reflexivity|].
  vm_compute. discriminate.
Qed.

(** The original C8 fails for a paid order whose [bookId] is not the text
    of an identifier: the user has a paid order and gets no invoice, the
    handler throws. *)
Lemma invoicesFor_throws :
  reachable_by example_date_toString static_adminEmails static_librarianEmails
    (λ _, True) (run bad_bookId_requests empty_store) ∧
  length (paid_orders (run bad_bookId_requests empty_store) "reader@gmail.com") = 1%nat ∧
  invoicesFor example_date_toString (run bad_bookId_requests empty_store)
    "reader@gmail.com" = Threw.
Proof.
  split; [apply reachable_run; by apply Forall_forall|].
  split; vm_compute; reflexivity.
Qed.



Lemma updateOwned_spec_witness :
  updateOwned updateOwned_fields example_store "librarian@gmail.com" oid5
    {[ "title" := VStr "mine now" ]}
  = (example_store, Send 200 (BSuccess false)) ∧
  ∃ h b, ObjectId oid3 = Some h ∧ b ∈ books example_store ∧
         get b "_id" = VOid h ∧ get b "librarianEmail" = VStr "librarian@gmail.com".
Proof.
  split.
  - destruct (updateOwned_spec updateOwned_fields example_store
                "librarian@gmail.com" oid5 {[ "title" := VStr "mine now" ]}) as [H _].
    apply (H oid5).
    + vm_compute. reflexivity.
    + vm_compute. reflexivity.
    + apply (bool_decide_eq_true_1 _). vm_compute. reflexivity.
  - destruct (updateOwned_spec updateOwned_fields example_store
                "librarian@gmail.com" oid3 {[ "title" := VStr "B, 2nd ed." ]}) as [_ H].
    eapply H. vm_compute. reflexivity.
Defined.

Lemma place_spec_witness :
  ∃ o, (place example_store "reader@gmail.com"
          {[ "bookId" := VStr oid3; "status" := VStr "delivered";
             "paymentStatus" := VStr "paid"; "email" := VStr "admin@gmail.com" ]}
          6000 oid6).1
       = set_orders example_store (orders example_store ++ [o])%list ∧
       get o "status" = VStr "pending" ∧
       get o "paymentStatus" = VStr "unpaid" ∧
       get o "email" = VStr "reader@gmail.com" ∧
       get o "createdAt" = VDate 6000.
Proof.
  destruct (place_spec example_store "reader@gmail.com"
              {[ "bookId" := VStr oid3; "status" := VStr "delivered";
                 "paymentStatus" := VStr "paid"; "email" := VStr "admin@gmail.com" ]}
              6000 oid6) as [H1 H2].
  assert (not_nullish (get ({[ "bookId" := VStr oid3; "status" := VStr "delivered";
             "paymentStatus" := VStr "paid"; "email" := VStr "admin@gmail.com" ]} : doc)
             "_id") = false) as Hnull by (vm_compute; reflexivity).
  assert (fresh_in oid6 (orders example_store)) as Hfresh
    by (apply (bool_decide_eq_true_1 _); vm_compute; reflexivity).
  specialize (H2 Hnull Hfresh).
  destruct (H1 _ _ H2) as [[Hthrew _]|(o & _ & Hst & Hs & Hp & He & Hc)];
    [discriminate Hthrew|].
  exists o. rewrite H2. cbn [fst]. auto.
Defined.

Lemma listPublished_spec_witness :
  ∃ l l', listPublished example_date_toString example_store = Send 200 (BBooks l) ∧
          listLatestPublished example_date_toString example_store = Send 200 (BBooks l') ∧
          Forall published l ∧ Forall published l' ∧
          Sorted (descending "createdAt") l'.
Proof.
  destruct (listPublished_spec example_date_toString example_store) as (H1 & H2 & H3).
  destruct H3 as (l & l' & Hl & Hl').
  - apply (bool_decide_eq_true_1 _). vm_compute. reflexivity.
  - exists l, l'. destruct (H2 l' Hl') as (_ & Hp & Hs).
    repeat split; auto.
Defined.

Lemma invoicesFor_spec_witness :
  ∃ inv p,
    invoicesFor example_date_toString
      (pay (place example_store "reader@gmail.com"
              {[ "bookId" := VStr oid3; "price" := VNum 20 ]} 6000 oid6).1
           "reader@gmail.com" oid6).1 "reader@gmail.com"
      = Send 200 (BInvoices [inv]) ∧
    get inv "amount" = VNum 20 ∧
    get inv "paymentId" = VStr p ∧
    p = "B3F4E506".
Proof.
  destruct (invoicesFor_spec example_date_toString example_store "reader@gmail.com")
    as (_ & _ & _ & H & _).
  destruct (H {[ "bookId" := VStr oid3; "price" := VNum 20 ]} 6000%Z oid6)
    as (inv & p & Hinv & Ha & Hp & Hpe & _).
  - vm_compute. reflexivity.
  - vm_compute. reflexivity.
  - vm_compute. reflexivity.
  - vm_compute. eauto.
  - vm_compute. reflexivity.
  - apply (bool_decide_eq_true_1 _). vm_compute. reflexivity.
  - exists inv, p. repeat split; try done; rewrite Hpe; vm_compute; reflexivity.
Defined.

(** * Further properties: what a request can change *)

Lemma apply_set_1 k v d : apply_set [(k, v)] d = <[k := to_bson v]> d.
Proof. done. Qed.

Lemma validStatus_to_bson v : v ∈ validStatus → to_bson v = v ∧ v ∈ order_statuses.
Proof.
  unfold validStatus, order_statuses. rewrite !elem_of_cons, elem_of_nil.
  intros [->|[->|[->|[]]]]; (split; [done|]); auto.
Qed.

(** Where an order of the store after a request comes from. *)
Lemma handle_orders dts admins libs r st o' :
  o' ∈ orders (handle dts admins libs r st).1 →
  o' ∈ orders st ∨
  (∃ o v, o ∈ orders st ∧ v ∈ order_statuses ∧ o' = <["status" := v]> o) ∨
  (∃ o, o ∈ orders st ∧ o' = <["paymentStatus" := VStr "paid"]> o) ∨
  (∃ email fields now fresh id,
     r = Place email fields now fresh ∧
     o' = <["_id" := id]> (newOrder email fields now)).
Proof.
  destruct r; cbn [handle].
  - unfold loginOrCreate. repeat case_match; auto.
  - unfold publishCandidate. repeat case_match; auto.
  - unfold place. destruct (insertOne _ _ _) as [[os i]|] eqn:E; [|auto].
    apply insertOne_Some in E as (_ & -> & _). cbn [fst orders set_orders].
    intros [?|Hnew%list_elem_of_singleton]%elem_of_app; [auto|]. subst o'.
    right. right. right. by eexists _, _, _, _, _.
  - unfold cancel, update_own_order. repeat case_match; auto.
    cbn [fst orders set_orders].
    intros [?|(ord & Ho & _ & ->)]%updateOne_elem_of; [auto|].
    right. left. exists ord, (VStr "cancelled"). split; [done|]. split; [|done].
    unfold order_statuses. rewrite !elem_of_cons. auto.
  - unfold pay, update_own_order. repeat case_match; auto.
    cbn [fst orders set_orders].
    intros [?|(ord & Ho & _ & ->)]%updateOne_elem_of; [auto|].
    right. right. left. by exists ord.
  - unfold updateStatus.
    destruct (negb (has_role _ _ _)); [auto|].
    destruct (bool_decide (status ∈ validStatus)) eqn:Hs; [|auto].
    apply bool_decide_eq_true in Hs. apply validStatus_to_bson in Hs as [Hb Hs].
    cbn [negb]. repeat case_match; auto.
    cbn [fst orders set_orders].
    intros [?|(ord & Ho & _ & ->)]%updateOne_elem_of; [auto|].
    right. left. exists ord, status. rewrite apply_set_1, Hb. auto.
  - unfold updateRole. repeat case_match; auto.
  - unfold setStatus. repeat case_match; auto.
  - unfold deleteCascade. repeat case_match; auto;
      cbn [fst orders set_orders set_books]; unfold deleteMany;
      intros [_ ?]%list_elem_of_filter; auto.
  - unfold updateOwned. repeat case_match; auto.
Qed.

(** X1: in every store the server reaches, every order has a status among
    "pending", "shipped", "delivered" and "cancelled" and a payment status
    among "unpaid" and "paid": [place] forces the first of each, and the
    three routes that update an order write only these values. *)
Theorem orders_ok_reachable dts admins libs P st :
  reachable_by dts admins libs P st → orders_ok st.
Proof.
  induction 1 as [|st r Hreach IH Hr]; [apply Forall_nil_2|].
  unfold orders_ok in *. rewrite Forall_forall in *. intros o' Ho'.
  apply handle_orders in Ho' as
    [Ho|[(o & v & Ho & Hv & ->)|[(o & Ho & ->)|(e & f & n & fr & i & _ & ->)]]].
  - by apply IH.
  - destruct (IH o Ho) as [_ Hp]. rewrite get_insert_eq, get_insert_ne by done. auto.
  - destruct (IH o Ho) as [Hs _]. rewrite get_insert_eq, get_insert_ne by done.
    split; [done|]. unfold payment_statuses. rewrite !elem_of_cons. auto.
  - destruct (newOrder_fields e f n) as (_ & _ & Hs & Hp & _).
    rewrite !get_insert_ne, Hs, Hp by done.
    unfold order_statuses, payment_statuses. rewrite !elem_of_cons. auto.
Qed.

Lemma orders_ok_reachable_witness : orders_ok example_store.
Proof.
  apply (orders_ok_reachable example_date_toString static_adminEmails
           static_librarianEmails (λ _, True)).
  apply reachable_run. by apply Forall_forall.
Defined.

(** X2: no request rewrites an order beyond its status and its payment
    status: every order of the store after a request is an order of the
    store before it with the same value in every other field ([_id],
    [email], [bookId], price, [createdAt], ...), or it is the order this
    very request placed, which carries the e-mail of the request. *)
Theorem orders_frame dts admins libs r st o' :
  o' ∈ orders (handle dts admins libs r st).1 →
  (∃ o, o ∈ orders st ∧
        ∀ k, k ≠ "status" → k ≠ "paymentStatus" → get o' k = get o k) ∨
  (∃ fields now fresh, r = Place (principal r) fields now fresh ∧
        get o' "email" = VStr (principal r) ∧
        o' ∉ orders st).
Proof.
  intros Ho'. pose proof Ho' as Hin.
  apply handle_orders in Ho' as
    [Ho|[(o & v & Ho & Hv & ->)|[(o & Ho & ->)|(e & f & n & fr & i & -> & ->)]]].
  - left. by exists o'.
  - left. exists o. split; [done|]. intros k Hk _. by rewrite get_insert_ne.
  - left. exists o. split; [done|]. intros k _ Hk. by rewrite get_insert_ne.
  - cbn [handle] in Hin. unfold place in Hin.
    destruct (insertOne _ _ _) as [[os j]|] eqn:E.
    + apply insertOne_Some in E as (Hj & -> & Hnew). cbn [fst orders set_orders] in Hin.
      destruct (decide (<["_id" := i]> (newOrder e f n) ∈ orders st)) as [Hold|Hold].
      * left. by eexists.
      * right. exists f, n, fr. cbn [principal]. split; [done|]. split; [|done].
        rewrite get_insert_ne by done. apply newOrder_fields.
    + cbn [fst] in Hin. left. by eexists.
Qed.

Lemma orders_frame_witness :
  (∃ o, o ∈ orders example_store ∧
        ∀ k, k ≠ "status" → k ≠ "paymentStatus" →
             get (<["status" := VStr "shipped"]> example_order) k = get o k) ∨
  (∃ fields now fresh,
        UpdateStatus "librarian@gmail.com" oid4 (VStr "shipped")
          = Place "librarian@gmail.com" fields now fresh ∧
        get (<["status" := VStr "shipped"]> example_order) "email"
          = VStr "librarian@gmail.com" ∧
        <["status" := VStr "shipped"]> example_order ∉ orders example_store).
Proof.
  apply (orders_frame example_date_toString static_adminEmails static_librarianEmails
           (UpdateStatus "librarian@gmail.com" oid4 (VStr "shipped")) example_store).
  apply (bool_decide_eq_true_1 _). vm_compute. reflexivity.
Defined.

(** The fields [updateOwned] sets are not the ones that identify a book. *)
Lemma updateOwned_fields_assoc (reqBody : doc) k :
  k ∉ updateOwned_fields →
  assoc (map (λ k, (k, get reqBody k)) updateOwned_fields) k = None.
Proof.
  unfold updateOwned_fields. rewrite !elem_of_cons, elem_of_nil. intros Hk.
  cbn. repeat (destruct (decide _) as [<-|_]; [exfalso; apply Hk; auto 10|]).
  done.
Qed.

Lemma deleteOne_elem_of q c d : d ∈ (deleteOne q c).1 → d ∈ c.
Proof.
  induction c as [|x c IH]; cbn [deleteOne]; [done|].
  destruct (matches q x); cbn [fst].
  - by right.
  - intros [->|?]%elem_of_cons; [left|right; auto].
Qed.

Lemma filter_updateOne (P : doc → Prop) `{∀ d, Decision (P d)} q upd c d :
  findOne q c = Some d → ¬ P d → ¬ P (apply_set upd d) →
  filter P (updateOne q upd c).1 = filter P c.
Proof.
  intros Hd Hn Hn'. destruct (findOne_split _ _ _ Hd) as (c1 & c2 & -> & Hm & Hc1).
  rewrite (updateOne_split _ _ _ _ _ Hc1 Hm). cbn [fst].
  by rewrite !filter_app, !filter_cons_False.
Qed.

(** X3: no request moves a book to another librarian or changes its
    identifier or creation time: every book of the store after a request
    is a book of the store before it with the same [_id],
    [librarianEmail] and [createdAt], or it is the book this very request
    created, whose [librarianEmail] is the e-mail of the request. *)
Theorem books_frame dts admins libs r st b' :
  b' ∈ books (handle dts admins libs r st).1 →
  (∃ b, b ∈ books st ∧ get b' "_id" = get b "_id" ∧
        get b' "librarianEmail" = get b "librarianEmail" ∧
        get b' "createdAt" = get b "createdAt") ∨
  (∃ fields now fresh, r = PublishCandidate (principal r) fields now fresh ∧
        get b' "librarianEmail" = VStr (principal r) ∧
        get b' "createdAt" = VDate now).
Proof.
  assert (∀ b, b ∈ books st →
    ∃ b0, b0 ∈ books st ∧ get b "_id" = get b0 "_id" ∧
          get b "librarianEmail" = get b0 "librarianEmail" ∧
          get b "createdAt" = get b0 "createdAt") as Hsame by (intros b ?; by exists b).
  destruct r; cbn [handle].
  - unfold loginOrCreate. repeat case_match; auto.
  - unfold publishCandidate. destruct (insertOne _ _ _) as [[bs i]|] eqn:E; [|auto].
    apply insertOne_Some in E as (_ & -> & _). cbn [fst books set_books].
    intros [?|Hnew%list_elem_of_singleton]%elem_of_app; [auto|]. subst b'.
    right. exists fields, now, fresh. cbn [principal]. split; [done|].
    split; by get_simpl.
  - unfold place. repeat case_match; auto.
  - unfold cancel, update_own_order. repeat case_match; auto.
  - unfold pay, update_own_order. repeat case_match; auto.
  - unfold updateStatus. repeat case_match; auto.
  - unfold updateRole. repeat case_match; auto.
  - unfold setStatus. repeat case_match; auto.
    cbn [fst books set_books].
    intros [?|(bk & Hb & _ & ->)]%updateOne_elem_of; [auto|].
    left. exists bk. rewrite apply_set_1. by rewrite !get_insert_ne.
  - unfold deleteCascade. repeat case_match; auto.
    cbn [fst books set_books set_orders].
    intros Hb'%deleteOne_elem_of. auto.
  - unfold updateOwned. repeat case_match; auto.
    cbn [fst books set_books].
    intros [?|(bk & Hb & _ & ->)]%updateOne_elem_of; [auto|].
    left. exists bk. split; [done|].
    rewrite !get_apply_set, !updateOwned_fields_assoc; [done|..];
      apply (bool_decide_eq_true_1 _); vm_compute; reflexivity.
Qed.

Lemma books_frame_witness :
  (∃ b, b ∈ books example_store ∧
        get (<["status" := VStr "published"]> example_draft) "_id" = get b "_id" ∧
        get (<["status" := VStr "published"]> example_draft) "librarianEmail"
          = get b "librarianEmail" ∧
        get (<["status" := VStr "published"]> example_draft) "createdAt"
          = get b "createdAt") ∨
  (∃ fields now fresh,
        SetStatus "admin@gmail.com" oid5 (VStr "published")
          = PublishCandidate "admin@gmail.com" fields now fresh ∧
        get (<["status" := VStr "published"]> example_draft) "librarianEmail"
          = VStr "admin@gmail.com" ∧
        get (<["status" := VStr "published"]> example_draft) "createdAt" = VDate now).
Proof.
  apply (books_frame example_date_toString static_adminEmails static_librarianEmails
           (SetStatus "admin@gmail.com" oid5 (VStr "published")) example_store).
  apply (bool_decide_eq_true_1 _). vm_compute. reflexivity.
Defined.

(** X4: a request of a principal who is not an administrator leaves the
    books of everybody else as they are: none is changed, removed or
    added, whatever the request. *)
Theorem others_books_untouched dts admins libs r st :
  has_role st (principal r) "admin" = false →
  filter (λ b, get b "librarianEmail" ≠ VStr (principal r))
         (books (handle dts admins libs r st).1)
  = filter (λ b, get b "librarianEmail" ≠ VStr (principal r)) (books st).
Proof.
  intros Hadmin. destruct r; cbn [handle principal] in *.
  - unfold loginOrCreate. by repeat case_match.
  - unfold publishCandidate. destruct (insertOne _ _ _) as [[bs i]|] eqn:E; [|done].
    apply insertOne_Some in E as (_ & -> & _). cbn [fst books set_books].
    rewrite filter_app, filter_cons_False, filter_nil, app_nil_r; [done|].
    intros Hne. apply Hne. by get_simpl.
  - unfold place. by repeat case_match.
  - unfold cancel, update_own_order. by repeat case_match.
  - unfold pay, update_own_order. by repeat case_match.
  - unfold updateStatus. by repeat case_match.
  - unfold updateRole. by rewrite Hadmin.
  - unfold setStatus. by rewrite Hadmin.
  - unfold deleteCascade. by rewrite Hadmin.
  - unfold updateOwned. destruct (negb _); [done|].
    destruct (ObjectId id) as [h|]; [|done]. cbn [fst books set_books].
    destruct (findOne [("_id", VOid h); ("librarianEmail", VStr email)] (books st))
      as [b|] eqn:E; [|by rewrite updateOne_None].
    pose proof (findOne_Some _ _ _ E) as [_ Hm].
    apply (matches_cons "_id") in Hm as [_ Hm]. apply (matches_1 "librarianEmail") in Hm.
    apply (filter_updateOne _ _ _ _ b); [done|by intros Hne|].
    intros Hne. apply Hne. rewrite get_apply_set, updateOwned_fields_assoc; [done|].
    apply (bool_decide_eq_true_1 _). vm_compute. reflexivity.
Qed.

Lemma others_books_untouched_witness :
  filter (λ b, get b "librarianEmail" ≠ VStr "librarian@gmail.com")
         (books (handle example_date_toString static_adminEmails static_librarianEmails
                   (UpdateOwned "librarian@gmail.com" oid5 {[ "title" := VStr "mine" ]})
                   example_store).1)
  = filter (λ b, get b "librarianEmail" ≠ VStr "librarian@gmail.com")
           (books example_store).
Proof.
  apply (others_books_untouched example_date_toString static_adminEmails
           static_librarianEmails
           (UpdateOwned "librarian@gmail.com" oid5 {[ "title" := VStr "mine" ]})).
  vm_compute. reflexivity.
Defined.

(** X5: a request of a principal who is neither an administrator nor a
    librarian leaves the orders of everybody else as they are. *)
Theorem others_orders_untouched dts admins libs r st :
  has_role st (principal r) "admin" = false →
  has_role st (principal r) "librarian" = false →
  filter (λ o, get o "email" ≠ VStr (principal r))
         (orders (handle dts admins libs r st).1)
  = filter (λ o, get o "email" ≠ VStr (principal r)) (orders st).
Proof.
  intros Hadmin Hlib.
  assert (∀ upd id, assoc upd "email" = None →
    filter (λ o, get o "email" ≠ VStr (principal r))
           (orders (update_own_order upd st (principal r) id).1)
    = filter (λ o, get o "email" ≠ VStr (principal r)) (orders st)) as Hown.
  { intros upd id Hupd. unfold update_own_order.
    destruct (ObjectId id) as [h|]; [|done].
    destruct (findOne _ _) as [o|] eqn:E; [|done].
    destruct (decide _) as [He|]; [|done]. cbn [fst orders set_orders].
    apply (filter_updateOne _ _ _ _ o); [done|by intros Hne|].
    intros Hne. apply Hne. by rewrite get_apply_set, Hupd. }
  destruct r; cbn [handle principal] in *.
  - unfold loginOrCreate. by repeat case_match.
  - unfold publishCandidate. by repeat case_match.
  - unfold place. destruct (insertOne _ _ _) as [[os i]|] eqn:E; [|done].
    apply insertOne_Some in E as (_ & -> & _). cbn [fst orders set_orders].
    rewrite filter_app, filter_cons_False, filter_nil, app_nil_r; [done|].
    intros Hne. apply Hne. rewrite get_insert_ne by done. apply newOrder_fields.
  - by apply Hown.
  - by apply Hown.
  - unfold updateStatus. by rewrite Hlib.
  - unfold updateRole. by rewrite Hadmin.
  - unfold setStatus. by rewrite Hadmin.
  - unfold deleteCascade. by rewrite Hadmin.
  - unfold updateOwned. by rewrite Hlib.
Qed.

Lemma others_orders_untouched_witness :
  filter (λ o, get o "email" ≠ VStr "alice@gmail.com")
         (orders (handle example_date_toString static_adminEmails static_librarianEmails
                   (Cancel "alice@gmail.com" oid4) example_store).1)
  = filter (λ o, get o "email" ≠ VStr "alice@gmail.com") (orders example_store).
Proof.
  apply (others_orders_untouched example_date_toString static_adminEmails
           static_librarianEmails (Cancel "alice@gmail.com" oid4));
    vm_compute; reflexivity.
Defined.

(** X6: a request of a principal who is not an administrator changes no
    user: the users stay as they are, but for the one record a first
    login appends for the principal's own e-mail. *)
Theorem users_untouched_by_non_admin dts admins libs r st :
  has_role st (principal r) "admin" = false →
  users (handle dts admins libs r st).1 = users st ∨
  ∃ uid name picture now fresh id,
    r = Login (principal r) uid name picture now fresh ∧
    findOne [("email", VStr (principal r))] (users st) = None ∧
    users (handle dts admins libs r st).1
      = (users st ++
           [<["_id" := id]> (newUser admins libs (principal r) uid name picture now)])%list.
Proof.
  intros Hadmin.
  pose proof (handle_users dts admins libs r st) as Hsame.
  destruct r; auto; cbn [handle principal] in *.
  - unfold loginOrCreate.
    destruct (findOne _ _) eqn:Hfind; [left; by destruct (with_string_id _ _)|].
    destruct (insertOne _ _ _) as [[us i]|] eqn:E; [|by left].
    apply insertOne_Some in E as (_ & -> & _). right.
    exists uid, name, picture, now, fresh, i. split; [done|]. split; [done|].
    by destruct (js_toString dts i).
  - left. unfold updateRole. by rewrite Hadmin.
Qed.

Lemma users_untouched_by_non_admin_witness :
  users (handle example_date_toString static_adminEmails static_librarianEmails
           (UpdateRole "librarian@gmail.com" oid2 (VStr "admin")) example_store).1
    = users example_store ∨
  ∃ uid name picture now fresh id,
    UpdateRole "librarian@gmail.com" oid2 (VStr "admin")
      = Login "librarian@gmail.com" uid name picture now fresh ∧
    findOne [("email", VStr "librarian@gmail.com")] (users example_store) = None ∧
    users (handle example_date_toString static_adminEmails static_librarianEmails
             (UpdateRole "librarian@gmail.com" oid2 (VStr "admin")) example_store).1
      = (users example_store ++
           [<["_id" := id]> (newUser static_adminEmails static_librarianEmails
                               "librarian@gmail.com" uid name picture now)])%list.
Proof.
  apply (users_untouched_by_non_admin example_date_toString static_adminEmails
           static_librarianEmails (UpdateRole "librarian@gmail.com" oid2 (VStr "admin"))).
  vm_compute. reflexivity.
Defined.

Lemma loginOrCreate_createUser dts admins libs st email uid name picture now fresh :
  findOne [("email", VStr email)] (users st) = None →
  loginOrCreate dts admins libs st email uid name picture now fresh
  = createUser dts admins libs st email uid name picture now fresh.
Proof. intros H. unfold loginOrCreate, createUser. by rewrite H. Qed.

Lemma createUser_fresh dts admins libs st email uid name picture now fresh :
  fresh_in fresh (users st) →
  (createUser dts admins libs st email uid name picture now fresh).1
  = set_users st
      (users st ++ [<["_id" := VOid fresh]> (newUser admins libs email uid name picture now)])%list.
Proof.
  intros Hfresh. unfold createUser.
  destruct (newUser_fields admins libs email uid name picture now) as (Hid & _).
  rewrite insertOne_fresh; [done|by rewrite Hid|by rewrite <- Forall_forall].
Qed.

(** X7: the lookup and the insert of a first login are two database calls,
    and nothing in the database keeps e-mails apart.  Of two first logins
    with one e-mail, handled one after the other, the second finds the
    record of the first, and one user carries the e-mail; when both look up
    before either inserts, both insert, and two users carry it. *)
Theorem login_race dts admins libs st email uid1 name1 picture1 now1 fresh1
    uid2 name2 picture2 now2 fresh2 :
  findOne [("email", VStr email)] (users st) = None →
  fresh_in fresh1 (users st) → fresh_in fresh2 (users st) → fresh1 ≠ fresh2 →
  length (find [("email", VStr email)]
            (users (loginOrCreate dts admins libs
                      (loginOrCreate dts admins libs st
                         email uid1 name1 picture1 now1 fresh1).1
                      email uid2 name2 picture2 now2 fresh2).1)) = 1%nat ∧
  length (find [("email", VStr email)]
            (users (createUser dts admins libs
                      (createUser dts admins libs st
                         email uid1 name1 picture1 now1 fresh1).1
                      email uid2 name2 picture2 now2 fresh2).1)) = 2%nat.
Proof.
  intros Hnone Hf1 Hf2 Hne.
  destruct (newUser_fields admins libs email uid1 name1 picture1 now1)
    as (_ & _ & He1 & _).
  destruct (newUser_fields admins libs email uid2 name2 picture2 now2)
    as (_ & _ & He2 & _).
  set (u1 := <["_id" := VOid fresh1]> (newUser admins libs email uid1 name1 picture1 now1)).
  assert (matches [("email", VStr email)] u1 = true) as Hm1.
  { apply (matches_1 "email"). unfold u1. by rewrite get_insert_ne. }
  assert (find [("email", VStr email)] (users st) = []) as Hfind.
  { unfold findOne in Hnone. by apply head_None in Hnone. }
  rewrite (loginOrCreate_createUser _ _ _ st) by done.
  rewrite !(createUser_fresh _ _ _ st) by done. fold u1. split.
  - unfold loginOrCreate. cbn [users set_users].
    rewrite findOne_app_r by done.
    assert (findOne [("email", VStr email)] [u1] = Some u1) as ->.
    { unfold findOne, find. by rewrite filter_cons_True by (by apply Is_true_true). }
    destruct (with_string_id dts u1); cbn [fst users set_users];
      rewrite find_app, Hfind; unfold find;
      by rewrite filter_cons_True by (by apply Is_true_true).
  - rewrite createUser_fresh.
    + cbn [users set_users]. rewrite !find_app, Hfind. unfold find.
      rewrite !filter_cons_True; [done| |by apply Is_true_true].
      apply (matches_1_Is_true "email"). by rewrite get_insert_ne.
    + cbn [users set_users]. unfold fresh_in. rewrite Forall_app, Forall_singleton.
      split; [done|]. unfold u1. rewrite get_insert_eq. congruence.
Qed.

Lemma login_race_witness :
  length (find [("email", VStr "reader@gmail.com")]
            (users (loginOrCreate example_date_toString static_adminEmails
                      static_librarianEmails
                      (loginOrCreate example_date_toString static_adminEmails
                         static_librarianEmails example_store
                         "reader@gmail.com" "uid-r" VUndef VUndef 7000 oid6).1
                      "reader@gmail.com" "uid-r" VUndef VUndef 7001
                      "64b7f3a2c9e1d5a0b3f4e507").1)) = 1%nat ∧
  length (find [("email", VStr "reader@gmail.com")]
            (users (createUser example_date_toString static_adminEmails
                      static_librarianEmails
                      (createUser example_date_toString static_adminEmails
                         static_librarianEmails example_store
                         "reader@gmail.com" "uid-r" VUndef VUndef 7000 oid6).1
                      "reader@gmail.com" "uid-r" VUndef VUndef 7001
                      "64b7f3a2c9e1d5a0b3f4e507").1)) = 2%nat.
Proof.
  apply (login_race example_date_toString static_adminEmails static_librarianEmails
           example_store "reader@gmail.com").
  - vm_compute. reflexivity.
  - apply (bool_decide_eq_true_1 _). vm_compute. reflexivity.
  - apply (bool_decide_eq_true_1 _). vm_compute. reflexivity.
  - discriminate.
Defined.


(** * Further properties: updates *)









Lemma gt0_modified (d d' : doc) :
  gt0 (if decide (d' = d) then 0 else 1) = bool_decide (d' ≠ d).
Proof. by destruct (decide (d' = d)); [rewrite bool_decide_eq_false_2 by auto|rewrite bool_decide_eq_true_2]. Qed.



Lemma assoc_fields (reqBody : doc) fields k :
  assoc (map (λ k, (k, get reqBody k)) fields) k
  = if decide (k ∈ fields) then Some (get reqBody k) else None.
Proof.
  induction fields as [|f fields IH]; cbn [map assoc fst snd].
  - by rewrite decide_False by apply not_elem_of_nil.
  - destruct (decide (f = k)) as [->|Hne].
    + by rewrite decide_True by left.
    + rewrite IH. destruct (decide (k ∈ fields)) as [Hin|Hin].
      * by rewrite decide_True by (by right).
      * rewrite decide_False; [done|]. intros [->|?]%elem_of_cons; auto.
Qed.

(** X10: the librarian's edit of a book of their own rewrites every field
    of the handler's list: a field the request gives takes the given
    value, and a field the request leaves out becomes [null] (a request
    that only renames a book also wipes its status, author, price and
    description).  The fields outside the list ([_id], [librarianEmail],
    [createdAt], ...) and the other books stay as they are. *)
Theorem updateOwned_owned fields st email id h reqBody b :
  has_role st email "librarian" = true →
  ObjectId id = Some h →
  findOne [("_id", VOid h); ("librarianEmail", VStr email)] (books st) = Some b →
  ∃ c1 c2 b',
    books st = (c1 ++ b :: c2)%list ∧
    updateOwned fields st email id reqBody
      = (set_books st (c1 ++ b' :: c2)%list, Send 200 (BSuccess (bool_decide (b' ≠ b)))) ∧
    (∀ k, k ∈ fields → get b' k = to_bson (get reqBody k)) ∧
    (∀ k, k ∈ fields → reqBody !! k = None → get b' k = VNull) ∧
    (∀ k, k ∉ fields → get b' k = get b k).
Proof.
  intros Hrole Hid Hb.
  destruct (findOne_split _ _ _ Hb) as (c1 & c2 & Hc & Hm & Hc1).
  exists c1, c2, (apply_set (map (λ k, (k, get reqBody k)) fields) b).
  split; [done|]. split; [|split; [|split]].
  - unfold updateOwned. rewrite Hrole, Hid. cbn [negb].
    rewrite Hc, (updateOne_split _ _ _ _ _ Hc1 Hm). cbn [fst snd].
    by rewrite gt0_modified.
  - intros k Hk. by rewrite get_apply_set, assoc_fields, decide_True.
  - intros k Hk Hnone. rewrite get_apply_set, assoc_fields, decide_True by done.
    unfold get. by rewrite Hnone.
  - intros k Hk. by rewrite get_apply_set, assoc_fields, decide_False.
Qed.

Lemma updateOwned_owned_witness :
  ∃ c1 c2 b',
    books example_store = (c1 ++ example_book :: c2)%list ∧
    updateOwned updateOwned_fields example_store "librarian@gmail.com" oid3
        {[ "title" := VStr "B, 2nd ed." ]}
      = (set_books example_store (c1 ++ b' :: c2)%list,
         Send 200 (BSuccess (bool_decide (b' ≠ example_book)))) ∧
    (∀ k, k ∈ updateOwned_fields →
          get b' k = to_bson (get ({[ "title" := VStr "B, 2nd ed." ]} : doc) k)) ∧
    (∀ k, k ∈ updateOwned_fields →
          ({[ "title" := VStr "B, 2nd ed." ]} : doc) !! k = None → get b' k = VNull) ∧
    (∀ k, k ∉ updateOwned_fields → get b' k = get example_book k).
Proof.
  apply (updateOwned_owned updateOwned_fields example_store "librarian@gmail.com"
           oid3 oid3 {[ "title" := VStr "B, 2nd ed." ]} example_book);
    vm_compute; reflexivity.
Defined.

Example renaming_a_book_unpublishes_it :
  ∃ st', updateOwned updateOwned_fields example_store "librarian@gmail.com" oid3
           {[ "title" := VStr "B, 2nd ed." ]} = (st', Send 200 (BSuccess true)) ∧
         listPublished example_date_toString example_store
           = Send 200 (BBooks [<["_id" := VStr oid3]> example_book]) ∧
         listPublished example_date_toString st' = Send 200 (BBooks []).
Proof. eexists. repeat split; vm_compute; reflexivity. Qed.

(** * Further properties: reading back what was written *)

Lemma mapM_app {A B} (f : A → option B) l1 l2 k1 k2 :
  mapM f l1 = Some k1 → mapM f l2 = Some k2 →
  mapM f (l1 ++ l2)%list = Some (k1 ++ k2)%list.
Proof. rewrite !mapM_Some. apply Forall2_app. Qed.

Lemma mapM_elem_of_l {A B} (f : A → option B) l k x :
  mapM f l = Some k → x ∈ l → ∃ y, f x = Some y ∧ y ∈ k.
Proof.
  intros HF%mapM_Some_1. induction HF as [|a b l k Hab HF IH]; [by intros ?%not_elem_of_nil|].
  intros [->|Hx]%elem_of_cons.
  - exists b. split; [done|left].
  - destruct (IH Hx) as (y & Hy & Hin). exists y. split; [done|by right].
Qed.

Lemma mapM_elem_of_r {A B} (f : A → option B) l k y :
  mapM f l = Some k → y ∈ k → ∃ x, x ∈ l ∧ f x = Some y.
Proof.
  intros HF%mapM_Some_1. induction HF as [|a b l k Hab HF IH]; [by intros ?%not_elem_of_nil|].
  intros [->|Hy]%elem_of_cons.
  - exists a. split; [left|done].
  - destruct (IH Hy) as (x & Hx & Hfx). exists x. split; [by right|done].
Qed.

(** Under unique identifiers, [findOne] by [_id] finds the document. *)
Lemma findOne_unique c d :
  unique_ids c → d ∈ c → findOne [("_id", get d "_id")] c = Some d.
Proof.
  unfold unique_ids. induction c as [|x c IH]; [by intros _ ?%not_elem_of_nil|].
  cbn [map]. rewrite NoDup_cons. intros [Hx Hc] [->|Hd]%elem_of_cons.
  - unfold findOne, find. rewrite filter_cons_True; [done|]. by apply (matches_1_Is_true "_id").
  - unfold findOne, find. rewrite filter_cons_False; [by apply IH|].
    intros Hm%(matches_1_Is_true "_id"). apply Hx. rewrite Hm.
    apply list_elem_of_fmap. by exists d.
Qed.

Lemma unique_ids_others c1 d c2 x :
  unique_ids (c1 ++ d :: c2)%list → x ∈ (c1 ++ c2)%list → get x "_id" ≠ get d "_id".
Proof.
  unfold unique_ids. rewrite map_app. cbn [map].
  intros Hnd Hx Heq.
  apply NoDup_app in Hnd as (_ & Hdisj & Hnd2). apply NoDup_cons in Hnd2 as [Hd2 _].
  apply elem_of_app in Hx as [Hx|Hx].
  - apply (Hdisj (get x "_id")); [apply list_elem_of_fmap; by exists x|].
    rewrite Heq. left.
  - apply Hd2. rewrite <- Heq. apply list_elem_of_fmap. by exists x.
Qed.

Lemma with_string_id_oid dts d h :
  get d "_id" = VOid h → with_string_id dts d = Some (<["_id" := VStr h]> d).
Proof. unfold with_string_id. by intros ->. Qed.

Lemma send_all_Data dts c l :
  send_all dts c = Data l ↔ mapM (with_string_id dts) c = Some l.
Proof.
  unfold send_all. destruct (mapM _ _); split; intros H; by simplify_eq.
Qed.

Lemma has_ids_mapM dts c :
  has_ids c → is_Some (mapM (with_string_id dts) c).
Proof.
  intros Hc. apply mapM_is_Some. unfold has_ids in Hc. rewrite Forall_forall in *.
  intros d Hd. by apply with_string_id_is_Some, Hc.
Qed.

(** X11: [getById] answers 404 exactly when no book has the identifier,
    and otherwise sends the book under it, whatever its status: a draft
    that [listPublished] leaves out is served to whoever asks for it by
    identifier. *)
Theorem getById_spec dts st id h :
  ObjectId id = Some h →
  (getById dts st id = Reply (Send 404 (BFailure "Not found")) ↔
   Forall (λ b, get b "_id" ≠ VOid h) (books st)) ∧
  (∀ b, unique_ids (books st) → b ∈ books st → get b "_id" = VOid h →
        getById dts st id = Data (<["_id" := VStr h]> b)).
Proof.
  intros Hid. unfold getById. rewrite Hid. split; [split|].
  - destruct (findOne _ _) as [b|] eqn:E.
    + by destruct (with_string_id dts b).
    + intros _. rewrite findOne_None in E. apply Forall_forall. intros b Hb Hh.
      specialize (E b Hb). by rewrite (proj2 (matches_1 "_id" _ _) Hh) in E.
  - intros HF. rewrite Forall_forall in HF.
    destruct (findOne _ _) as [b|] eqn:E; [|done].
    apply findOne_Some in E as [Hb Hm]. apply (matches_1 "_id") in Hm. by destruct (HF b Hb).
  - intros b Hu Hb Hh. rewrite <- Hh, (findOne_unique _ _ Hu Hb).
    by rewrite (with_string_id_oid _ _ _ Hh).
Qed.

Lemma getById_spec_witness :
  getById example_date_toString example_store oid5
    = Data (<["_id" := VStr oid5]> example_draft) ∧
  ¬ Forall (λ b, get b "_id" ≠ VOid oid5) (books example_store).
Proof.
  destruct (getById_spec example_date_toString example_store oid5 oid5) as [H1 H2];
    [vm_compute; reflexivity|].
  assert (getById example_date_toString example_store oid5
            = Data (<["_id" := VStr oid5]> example_draft)) as Hget.
  { apply H2.
    - unfold unique_ids. apply (bool_decide_eq_true_1 _). vm_compute. reflexivity.
    - apply (bool_decide_eq_true_1 _). vm_compute. reflexivity.
    - vm_compute. reflexivity. }
  split; [done|]. intros HF. apply H1 in HF. rewrite Hget in HF. discriminate HF.
Defined.

Lemma publishCandidate_fresh st email fields now fresh :
  not_nullish (get fields "_id") = false →
  fresh_in fresh (books st) →
  publishCandidate st email fields now fresh
    = (set_books st (books st ++ [<["_id" := VOid fresh]> (new_book email fields now)])%list,
       Send 200 (BInserted (VOid fresh))).
Proof.
  intros Hnull Hfresh. unfold publishCandidate. fold (new_book email fields now).
  rewrite insertOne_fresh; [done| |by rewrite <- Forall_forall].
  unfold new_book. by rewrite !get_insert_ne.
Qed.

Lemma fresh_in_findOne fresh c : fresh_in fresh c → findOne [("_id", VOid fresh)] c = None.
Proof.
  intros Hf. apply findOne_None. intros d Hd. unfold fresh_in in Hf.
  rewrite Forall_forall in Hf. destruct (matches _ d) eqn:E; [|done].
  apply (matches_1 "_id") in E. by destruct (Hf d Hd).
Qed.

(** X12: [POST /books] asks for no role.  Whoever is logged in creates a
    book: it is stored with the e-mail of the request as [librarianEmail]
    and the time of the request as [createdAt], whatever the body says
    under these two names, and with the body's other fields as they are;
    [getById] under the identifier the reply carries sends that book
    back. *)
Theorem publishCandidate_getById dts st email fields now fresh :
  not_nullish (get fields "_id") = false →
  is_oid fresh →
  fresh_in fresh (books st) →
  ∃ b,
    publishCandidate st email fields now fresh
      = (set_books st (books st ++ [<["_id" := VOid fresh]> b])%list,
         Send 200 (BInserted (VOid fresh))) ∧
    getById dts (publishCandidate st email fields now fresh).1 fresh
      = Data (<["_id" := VStr fresh]> b) ∧
    get b "librarianEmail" = VStr email ∧
    get b "createdAt" = VDate now ∧
    (∀ k, k ≠ "librarianEmail" → k ≠ "createdAt" → get b k = get fields k).
Proof.
  intros Hnull Hoid Hfresh. exists (new_book email fields now).
  rewrite publishCandidate_fresh by done. split; [done|]. split; [|split; [|split]].
  - unfold getById. rewrite Hoid. cbn [fst books set_books].
    rewrite findOne_app_r by (by apply fresh_in_findOne).
    unfold findOne, find. rewrite filter_cons_True
      by (apply (matches_1_Is_true "_id"); by rewrite get_insert_eq).
    cbn [head filter]. rewrite (with_string_id_oid _ _ fresh) by (by rewrite get_insert_eq).
    by rewrite insert_insert_eq.
  - unfold new_book. by get_simpl.
  - unfold new_book. by get_simpl.
  - intros k Hk1 Hk2. unfold new_book. by rewrite !get_insert_ne.
Qed.

Lemma publishCandidate_getById_witness :
  ∃ b,
    getById example_date_toString
      (publishCandidate example_store "reader@gmail.com"
         {[ "title" := VStr "R"; "librarianEmail" := VStr "librarian@gmail.com" ]}
         6000 oid6).1 oid6
      = Data (<["_id" := VStr oid6]> b) ∧
    get b "librarianEmail" = VStr "reader@gmail.com".
Proof.
  destruct (publishCandidate_getById example_date_toString example_store
              "reader@gmail.com"
              {[ "title" := VStr "R"; "librarianEmail" := VStr "librarian@gmail.com" ]}
              6000 oid6) as (b & _ & Hget & Hown & _).
  - vm_compute. reflexivity.
  - vm_compute. reflexivity.
  - apply (bool_decide_eq_true_1 _). vm_compute. reflexivity.
  - by exists b.
Defined.

Lemma listPublished_Send dts st l :
  listPublished dts st = Send 200 (BBooks l) ↔
  mapM (with_string_id dts) (find [("status", VStr "published")] (books st)) = Some l.
Proof.
  unfold listPublished. destruct (mapM _ _); split; intros H; by simplify_eq.
Qed.

(** X13: a book posted with [status: "published"] is public at once: no
    administrator has to publish it.  [listPublished] after the request
    is [listPublished] before it followed by the new book. *)
Theorem publishCandidate_listed dts st email fields now fresh l :
  get fields "status" = VStr "published" →
  not_nullish (get fields "_id") = false →
  fresh_in fresh (books st) →
  listPublished dts st = Send 200 (BBooks l) →
  listPublished dts (publishCandidate st email fields now fresh).1
    = Send 200 (BBooks (l ++ [<["_id" := VStr fresh]> (new_book email fields now)])%list).
Proof.
  intros Hs Hnull Hfresh Hl. rewrite publishCandidate_fresh by done.
  apply listPublished_Send in Hl. apply listPublished_Send.
  cbn [fst books set_books]. rewrite find_app. apply mapM_app; [done|].
  unfold find. rewrite filter_cons_True.
  - cbn [filter list_filter mapM].
    rewrite (with_string_id_oid _ _ fresh) by (by rewrite get_insert_eq).
    cbn. by rewrite insert_insert_eq.
  - apply (matches_1_open_Is_true "status"). left.
    unfold new_book. by rewrite !get_insert_ne.
Qed.

Lemma publishCandidate_listed_witness :
  listPublished example_date_toString
    (publishCandidate example_store "reader@gmail.com"
       {[ "title" := VStr "R"; "status" := VStr "published" ]} 6000 oid6).1
  = Send 200 (BBooks ([<["_id" := VStr oid3]> example_book] ++
       [<["_id" := VStr oid6]>
          (new_book "reader@gmail.com"
             {[ "title" := VStr "R"; "status" := VStr "published" ]} 6000)])%list).
Proof.
  apply (publishCandidate_listed example_date_toString example_store "reader@gmail.com"
           {[ "title" := VStr "R"; "status" := VStr "published" ]} 6000 oid6).
  - vm_compute. reflexivity.
  - vm_compute. reflexivity.
  - apply (bool_decide_eq_true_1 _). vm_compute. reflexivity.
  - vm_compute. reflexivity.
Defined.

Lemma filter_others_split c1 (d : doc) c2 :
  unique_ids (c1 ++ d :: c2)%list →
  filter (λ x, get x "_id" ≠ get d "_id") (c1 ++ d :: c2)%list = (c1 ++ c2)%list.
Proof.
  intros Hu. rewrite filter_app, filter_cons_False by (by intros Hne).
  rewrite <- filter_app. apply filter_all. intros x Hx.
  by apply (unique_ids_others c1 d c2).
Qed.

(** X14: an administrator publishes and unpublishes.  After the status of
    a book is set to "published", or to an array that holds "published",
    [listPublished] holds the book; after it is set to any other value,
    [listPublished] is what it would be without the book. *)
Theorem setStatus_listPublished dts st email id h b :
  has_role st email "admin" = true →
  ObjectId id = Some h →
  unique_ids (books st) → has_ids (books st) →
  b ∈ books st → get b "_id" = VOid h →
  (∀ v, holds (to_bson v) (VStr "published") →
        ∃ l, listPublished dts (setStatus st email id v).1 = Send 200 (BBooks l) ∧
             <["_id" := VStr h]> (<["status" := to_bson v]> b) ∈ l) ∧
  (∀ v, ¬ holds (to_bson v) (VStr "published") →
        listPublished dts (setStatus st email id v).1
        = listPublished dts
            (set_books st (filter (λ x, get x "_id" ≠ VOid h) (books st)))).
Proof.
  intros Hadmin Hid Hu Hids Hb Hh.
  pose proof (findOne_unique _ _ Hu Hb) as Hfind. rewrite Hh in Hfind.
  destruct (findOne_split _ _ _ Hfind) as (c1 & c2 & Hc & Hm & Hc1).
  assert (∀ v, (setStatus st email id v).1
               = set_books st (c1 ++ <["status" := to_bson v]> b :: c2)%list) as Hset.
  { intros v. unfold setStatus. rewrite Hadmin, Hid. cbn [negb fst].
    by rewrite Hc, (updateOne_split _ _ _ _ _ Hc1 Hm). }
  split.
  - intros v Hv. rewrite Hset.
    set (b' := <["status" := to_bson v]> b).
    assert (has_ids (c1 ++ b' :: c2)%list) as Hids'.
    { unfold has_ids in *. rewrite Hc in Hids. rewrite Forall_app, Forall_cons in *.
      destruct Hids as (? & Hb0 & ?). repeat split; try done.
      unfold b'. by rewrite get_insert_ne. }
    destruct (has_ids_mapM dts (find [("status", VStr "published")] (c1 ++ b' :: c2)%list))
      as [l Hl].
    { unfold has_ids in *. rewrite Forall_forall in *. intros x Hx.
      apply elem_of_find in Hx as [_ Hx]. by apply Hids'. }
    exists l. split; [by apply listPublished_Send|].
    destruct (mapM_elem_of_l _ _ _ b' Hl) as (y & Hy & Hin).
    { apply elem_of_find. split.
      - apply (matches_1_open "status"). unfold b'. by rewrite get_insert_eq.
      - rewrite elem_of_app, elem_of_cons. auto. }
    rewrite (with_string_id_oid _ _ h) in Hy by (unfold b'; by rewrite get_insert_ne).
    by injection Hy as <-.
  - intros v Hv. rewrite Hset. unfold listPublished. cbn [books set_books].
    rewrite <- Hh. rewrite Hc in Hu |- *. rewrite (filter_others_split c1 b c2) by done.
    rewrite !find_app. unfold find at 2. rewrite filter_cons_False; [done|].
    intros Hp%(matches_1_open_Is_true "status"). by rewrite get_insert_eq in Hp.
Qed.

Lemma setStatus_listPublished_witness :
  (∃ l, listPublished example_date_toString
          (setStatus example_store "admin@gmail.com" oid5
             (VArr [VStr "new"; VStr "published"])).1
          = Send 200 (BBooks l) ∧
        <["_id" := VStr oid5]>
          (<["status" := VArr [VStr "new"; VStr "published"]]> example_draft) ∈ l) ∧
  listPublished example_date_toString
    (setStatus example_store "admin@gmail.com" oid3 (VStr "draft")).1
  = Send 200 (BBooks []).
Proof.
  split.
  - destruct (setStatus_listPublished example_date_toString example_store
                "admin@gmail.com" oid5 oid5 example_draft) as [H _];
      first [ apply (H (VArr [VStr "new"; VStr "published"]));
              apply (bool_decide_eq_true_1 _); vm_compute; reflexivity
            | vm_compute; reflexivity
            | apply (bool_decide_eq_true_1 _); vm_compute; reflexivity ].
  - destruct (setStatus_listPublished example_date_toString example_store
                "admin@gmail.com" oid3 oid3 example_book) as [_ H];
      first [ rewrite H by (apply (bool_decide_eq_false_1 (holds _ _)); vm_compute; reflexivity);
              vm_compute; reflexivity
            | vm_compute; reflexivity
            | apply (bool_decide_eq_true_1 _); vm_compute; reflexivity ].
Defined.

(** X15: an order shows in the list of the user who placed it and in
    nobody else's.  [listMine] sends only orders that carry the e-mail of
    the request; after [place], the placer's list is the list before it
    followed by the new order, and every other user's list is as before. *)
Theorem listMine_place dts st email fields now fresh l :
  not_nullish (get fields "_id") = false →
  fresh_in fresh (orders st) →
  listMine dts st email = Data l →
  Forall (λ o, get o "email" = VStr email) l ∧
  listMine dts (place st email fields now fresh).1 email
    = Data (l ++ [<["_id" := VStr fresh]> (newOrder email fields now)])%list ∧
  (∀ other, other ≠ email →
     listMine dts (place st email fields now fresh).1 other = listMine dts st other).
Proof.
  intros Hnull Hfresh Hl. apply send_all_Data in Hl.
  destruct (newOrder_fields email fields now) as (_ & He & _).
  rewrite place_fresh by done. unfold listMine. cbn [fst orders set_orders].
  split; [|split].
  - eapply (mapM_with_string_id dts "email"); [done|exact Hl|].
    apply Forall_forall. intros o Ho. apply elem_of_find in Ho as [Hm _].
    by apply (matches_1 "email") in Hm.
  - apply send_all_Data. rewrite find_app. apply mapM_app; [done|].
    unfold find. rewrite filter_cons_True
      by (apply (matches_1_Is_true "email"); by rewrite get_insert_ne).
    cbn [filter list_filter mapM].
    rewrite (with_string_id_oid _ _ fresh) by (by rewrite get_insert_eq).
    cbn. by rewrite insert_insert_eq.
  - intros other Hother. rewrite find_app. unfold find at 2.
    rewrite filter_cons_False, filter_nil, app_nil_r; [done|].
    intros Hm%(matches_1_Is_true "email"). rewrite get_insert_ne, He in Hm by done. congruence.
Qed.

Lemma listMine_place_witness :
  listMine example_date_toString
    (place example_store "reader@gmail.com" {[ "bookId" := VStr oid5 ]} 6000 oid6).1
    "reader@gmail.com"
  = Data ([<["_id" := VStr oid4]> example_order] ++
          [<["_id" := VStr oid6]>
             (newOrder "reader@gmail.com" {[ "bookId" := VStr oid5 ]} 6000)])%list.
Proof.
  apply (listMine_place example_date_toString example_store "reader@gmail.com"
           {[ "bookId" := VStr oid5 ]} 6000 oid6).
  - vm_compute. reflexivity.
  - apply (bool_decide_eq_true_1 _). vm_compute. reflexivity.
  - vm_compute. reflexivity.
Defined.

Lemma elem_of_find_in k `{!Open k} vs c d :
  d ∈ find_in k vs c ↔ (∃ v, v ∈ vs ∧ holds (get d k) v) ∧ d ∈ c.
Proof.
  unfold find_in. rewrite list_elem_of_filter, Is_true_true, existsb_exists.
  setoid_rewrite (field_test_open k). setoid_rewrite field_matches_holds.
  by setoid_rewrite <- list_elem_of_In.
Qed.

(** X16: what a librarian is shown, the librarian may update.  In a store
    whose identifiers are the driver's, for every order that
    [listForLibrarian] sends to a librarian and whose [bookId] is not an
    array, [updateStatus] by that librarian under the order's identifier
    and with a valid status is carried out: the reply is 200, never 403,
    404 or an exception. *)
Theorem listForLibrarian_updateStatus dts st email l o' status :
  unique_ids (books st) → oid_ids (books st) →
  unique_ids (orders st) → oid_ids (orders st) →
  listForLibrarian dts st email = Data l →
  o' ∈ l →
  is_array (get o' "bookId") = false →
  status ∈ validStatus →
  ∃ id ok os,
    get o' "_id" = VStr id ∧
    updateStatus st email id status = (set_orders st os, Send 200 (BSuccess ok)).
Proof.
  intros Hub Hob Huo Hoo Hl Ho' Harr Hs. unfold listForLibrarian in Hl.
  destruct (has_role st email "librarian") eqn:Hrole; [|done]. cbn [negb] in Hl.
  destruct (mapM _ _) as [ids|] eqn:Hids; [|done].
  apply send_all_Data in Hl.
  destruct (mapM_elem_of_r _ _ _ _ Hl Ho') as (o & Ho & Hoo').
  rewrite (with_string_id_get _ _ _ "bookId" Hoo') in Harr by done.
  apply (elem_of_find_in "bookId") in Ho as [(v & Hv & Hbook) Ho].
  apply holds_scalar in Hbook; [|done].
  apply list_elem_of_fmap in Hv as (s & -> & Hsin).
  destruct (mapM_elem_of_r _ _ _ _ Hids Hsin) as (bk & Hbk & Hbs).
  apply elem_of_find in Hbk as [Hown Hbk]. apply (matches_1 "librarianEmail") in Hown.
  unfold oid_ids in *. rewrite Forall_forall in Hob, Hoo.
  destruct (Hob bk Hbk) as (hb & Hbid & Hhb).
  destruct (Hoo o Ho) as (ho & Hoid & Hho).
  rewrite Hbid in Hbs. cbn in Hbs. injection Hbs as <-.
  rewrite (with_string_id_oid _ _ _ Hoid) in Hoo'. injection Hoo' as <-.
  exists ho. unfold updateStatus. rewrite Hrole. cbn [negb].
  rewrite bool_decide_eq_true_2, Hho by done.
  pose proof (findOne_unique _ _ Huo Ho) as Hfo. rewrite Hoid in Hfo. rewrite Hfo.
  unfold findById. rewrite Hbook. cbn [new_ObjectId]. rewrite Hhb.
  pose proof (findOne_unique _ _ Hub Hbk) as Hfb. rewrite Hbid in Hfb. rewrite Hfb.
  destruct (decide _) as [_|]; [|done].
  eexists _, _. split; [by rewrite get_insert_eq|done].
Qed.

Lemma listForLibrarian_updateStatus_witness :
  ∃ id ok os,
    get (<["_id" := VStr oid4]> example_order) "_id" = VStr id ∧
    updateStatus example_store "librarian@gmail.com" id (VStr "delivered")
      = (set_orders example_store os, Send 200 (BSuccess ok)).
Proof.
  apply (listForLibrarian_updateStatus example_date_toString example_store
           "librarian@gmail.com" [<["_id" := VStr oid4]> example_order]).
  - unfold unique_ids. apply (bool_decide_eq_true_1 _). vm_compute. reflexivity.
  - repeat (apply Forall_cons; split; [eexists; split; vm_compute; reflexivity|]).
    apply Forall_nil_2.
  - unfold unique_ids. apply (bool_decide_eq_true_1 _). vm_compute. reflexivity.
  - repeat (apply Forall_cons; split; [eexists; split; vm_compute; reflexivity|]).
    apply Forall_nil_2.
  - vm_compute. reflexivity.
  - left.
  - vm_compute. reflexivity.
  - apply (bool_decide_eq_true_1 _). vm_compute. reflexivity.
Defined.

(** * The wishlist *)

Lemma wishlist_item_fields email bookId now :
  let w := wishlist_item email bookId now in
  get w "_id" = VUndef ∧ get w "email" = VStr email ∧ get w "bookId" = bookId.
Proof.
  unfold wishlist_item. repeat split; get_simpl; try done.
Qed.

Lemma wishlist_add_fresh ws email bookId now fresh :
  truthy bookId = true →
  findOne [("email", VStr email); ("bookId", bookId)] ws = None →
  fresh_in fresh ws →
  wishlist_add ws email bookId now fresh
    = ((ws ++ [<["_id" := VOid fresh]> (wishlist_item email bookId now)])%list,
       Send 200 (BInserted (VOid fresh))).
Proof.
  intros Ht Hnone Hfresh. unfold wishlist_add. rewrite Ht, Hnone. cbn [negb].
  destruct (wishlist_item_fields email bookId now) as (Hid & _).
  rewrite insertOne_fresh; [done|by rewrite Hid|by rewrite <- Forall_forall].
Qed.


(** X18: adding the same book again is refused.  After [wishlist_add] by a
    user for a [bookId] that is a string, a number, a boolean or an array,
    under an identifier that is new to the collection, a second
    [wishlist_add] by the user for the same [bookId] answers 400 "Already
    in wishlist" and leaves the wishlist as it is, whether the first one
    stored the item or found it there. *)
Theorem wishlist_add_twice ws email bookId now fresh now' fresh' :
  truthy bookId = true →
  fresh_in fresh ws →
  wishlist_add (wishlist_add ws email bookId now fresh).1 email bookId now' fresh'
    = ((wishlist_add ws email bookId now fresh).1,
       Send 400 (BFailure "Already in wishlist")).
Proof.
  intros Ht Hfresh.
  destruct (findOne [("email", VStr email); ("bookId", bookId)] ws) as [w|] eqn:Hfind.
  - assert (wishlist_add ws email bookId now fresh
            = (ws, Send 400 (BFailure "Already in wishlist"))) as ->.
    { unfold wishlist_add. by rewrite Ht, Hfind. }
    cbn [fst]. unfold wishlist_add. by rewrite Ht, Hfind.
  - rewrite (wishlist_add_fresh ws email bookId now fresh) by done. cbn [fst].
    unfold wishlist_add. rewrite Ht. cbn [negb].
    rewrite findOne_app_r by done.
    destruct (wishlist_item_fields email bookId now) as (_ & He & Hb).
    unfold findOne, find. rewrite filter_cons_True; [done|].
    apply Is_true_true, (matches_cons "email"). rewrite !get_insert_ne by done.
    split; [done|]. apply (matches_1_open "bookId"). left.
    by rewrite get_insert_ne.
Qed.

Lemma wishlist_add_twice_witness :
  wishlist_add example_wishlist "reader@gmail.com" (VStr oid3) 9000 oid1
    = (example_wishlist, Send 400 (BFailure "Already in wishlist")).
Proof.
  apply (wishlist_add_twice [] "reader@gmail.com" (VStr oid3) 7000 oid6 9000 oid1).
  - vm_compute. reflexivity.
  - apply Forall_nil_2.
Defined.



Lemma ObjectId_truthy id h : ObjectId id = Some h → truthy (VStr id) = true.
Proof. destruct id; [by vm_compute|done]. Qed.

Lemma findById_text id h c :
  ObjectId id = Some h → findById (VStr id) c = Some (findOne [("_id", VOid h)] c).
Proof. intros Hid. unfold findById. cbn [new_ObjectId]. by rewrite Hid. Qed.

(** X20: a book put on the wishlist shows there as [GET /books/:id] sends
    it.  When [getById] sends a book under an identifier and the user has
    no item for it yet, the user's list after [wishlist_add] is the list
    before it followed by the new item paired with that book; every other
    user's list is as before. *)
Theorem wishlist_add_listed dts st ws email id now fresh l b :
  wishlist_list dts st ws email = Data l →
  getById dts st id = Data b →
  findOne [("email", VStr email); ("bookId", VStr id)] ws = None →
  fresh_in fresh ws →
  wishlist_list dts st (wishlist_add ws email (VStr id) now fresh).1 email
    = Data (l ++ [(<["_id" := VStr fresh]> (wishlist_item email (VStr id) now), Some b)])%list ∧
  (∀ other, other ≠ email →
     wishlist_list dts st (wishlist_add ws email (VStr id) now fresh).1 other
     = wishlist_list dts st ws other).
Proof.
  intros Hl Hb Hnone Hfresh. unfold getById in Hb.
  destruct (ObjectId id) as [h|] eqn:Hid; [|done].
  destruct (findOne _ (books st)) as [book|] eqn:Hbook; [|done].
  destruct (with_string_id dts book) as [b0|] eqn:Hb0; [|done].
  injection Hb as ->.
  rewrite wishlist_add_fresh by eauto using ObjectId_truthy. cbn [fst].
  destruct (wishlist_item_fields email (VStr id) now) as (_ & He & Hbk).
  unfold wishlist_list in *. rewrite !find_app. split.
  - destruct (mapM _ (find _ ws)) as [l0|] eqn:Hl0; [|done]. injection Hl as ->.
    erewrite mapM_app; [done|done|].
    unfold find. rewrite filter_cons_True
      by (apply (matches_1_Is_true "email"); by rewrite get_insert_ne).
    cbn [filter list_filter mapM]. unfold wishlist_entry at 1.
    rewrite get_insert_ne, Hbk, (findById_text _ _ _ Hid), Hbook by done.
    rewrite (with_string_id_oid _ _ fresh) by (by rewrite get_insert_eq).
    cbn. rewrite Hb0. cbn. by rewrite insert_insert_eq.
  - intros other Hother. rewrite find_app. unfold find at 2.
    rewrite filter_cons_False, filter_nil, app_nil_r; [done|].
    intros Hm%(matches_1_Is_true "email"). rewrite get_insert_ne, He in Hm by done. congruence.
Qed.

Lemma wishlist_add_listed_witness :
  wishlist_list example_date_toString example_store
    (wishlist_add [] "reader@gmail.com" (VStr oid3) 7000 oid6).1 "reader@gmail.com"
  = Data ([] ++ [(<["_id" := VStr oid6]> (wishlist_item "reader@gmail.com" (VStr oid3) 7000),
                  Some (<["_id" := VStr oid3]> example_book))])%list.
Proof.
  apply (wishlist_add_listed example_date_toString example_store []
           "reader@gmail.com" oid3 7000 oid6).
  - vm_compute. reflexivity.
  - vm_compute. reflexivity.
  - vm_compute. reflexivity.
  - apply Forall_nil_2.
Defined.

(** X21: deleting a book does not clear it from the wishlists.  After
    [deleteCascade] by an administrator, a wishlist item that names the
    deleted book lists with [null] for its book. *)
Theorem deleteCascade_wishlist dts st email id id' h w w' :
  has_role st email "admin" = true →
  ObjectId id = Some h →
  unique_ids (books st) →
  get w "bookId" = VStr id' → ObjectId id' = Some h →
  with_string_id dts w = Some w' →
  wishlist_entry dts (deleteCascade st email id).1 w = Some (w', None).
Proof.
  intros Hadmin Hid Hu Hbk Hid' Hw. unfold deleteCascade. rewrite Hadmin, Hid.
  cbn [negb fst books set_books set_orders]. rewrite deleteOne_unique by done.
  unfold wishlist_entry. rewrite Hbk, (findById_text _ _ _ Hid').
  cbn [books set_books set_orders].
  assert (findOne [("_id", VOid h)] (filter (λ d, get d "_id" ≠ VOid h) (books st)) = None)
    as ->.
  { apply findOne_None. intros d [Hd _]%list_elem_of_filter.
    destruct (matches _ d) eqn:E; [|done]. by apply (matches_1 "_id") in E. }
  cbn. by rewrite Hw.
Qed.

Lemma deleteCascade_wishlist_witness :
  wishlist_entry example_date_toString
    (deleteCascade example_store "admin@gmail.com" oid3).1
    (<["_id" := VOid oid6]> (wishlist_item "reader@gmail.com" (VStr oid3) 7000))
  = Some (<["_id" := VStr oid6]>
            (<["_id" := VOid oid6]> (wishlist_item "reader@gmail.com" (VStr oid3) 7000)),
          None).
Proof.
  apply (deleteCascade_wishlist example_date_toString example_store
           "admin@gmail.com" oid3 oid3 oid3).
  - vm_compute. reflexivity.
  - vm_compute. reflexivity.
  - unfold unique_ids. apply (bool_decide_eq_true_1 _). vm_compute. reflexivity.
  - vm_compute. reflexivity.
  - vm_compute. reflexivity.
  - vm_compute. reflexivity.
Defined.

(** * The token check *)

Lemma split_on_app c s t :
  string_forallb (λ a, negb (bool_decide (a = c))) s = true →
  split_on c (s ++ String c t) = s :: split_on c t.
Proof.
  induction s as [|a s IH]; cbn [string_forallb].
  - intros _. change ("" ++ String c t) with (String c t). cbn [split_on].
    by destruct (decide (c = c)).
  - intros [Ha Hs]%andb_true_iff. apply negb_true_iff, bool_decide_eq_false in Ha.
    change (String a s ++ String c t) with (String a (s ++ String c t)).
    cbn [split_on]. destruct (decide (a = c)); [done|]. by rewrite IH.
Qed.

Lemma split_on_whole c s :
  string_forallb (λ a, negb (bool_decide (a = c))) s = true →
  split_on c s = [s].
Proof.
  induction s as [|a s IH]; cbn [string_forallb split_on]; [done|].
  intros [Ha Hs]%andb_true_iff. apply negb_true_iff, bool_decide_eq_false in Ha.
  destruct (decide (a = c)); [done|]. by rewrite IH.
Qed.

(** X22: the middleware does not look at the scheme of the
    [Authorization] header.  Whatever word stands before the first space,
    the answer is the one for "Bearer": only what follows the space goes
    to the verifier.  A header that is one word gives the verifier
    [undefined], and the answer is the verifier's for that. *)
Theorem verifyFBToken_scheme_ignored verifyIdToken scheme :
  no_space scheme = true →
  (∀ rest, verifyFBToken verifyIdToken (Some (scheme ++ String space rest))
           = verifyFBToken verifyIdToken (Some ("Bearer" ++ String space rest))) ∧
  (scheme ≠ "" →
   verifyFBToken verifyIdToken (Some scheme)
   = match verifyIdToken None with
     | inl message => Unauthorized (Some message)
     | inr (email, uid) => Authenticated email uid
     end).
Proof.
  intros Hs. unfold no_space in Hs. split.
  - intros rest. unfold verifyFBToken.
    rewrite (split_on_app space scheme rest Hs).
    rewrite (split_on_app space "Bearer" rest) by done.
    destruct (decide (scheme ++ String space rest = "")) as [E|_].
    { by destruct scheme. }
    by destruct (decide (_ = "")).
  - intros Hne. unfold verifyFBToken.
    destruct (decide (scheme = "")); [done|].
    by rewrite (split_on_whole space scheme Hs).
Qed.

Lemma verifyFBToken_scheme_ignored_witness :
  verifyFBToken example_verifyIdToken (Some ("Basic" ++ String space "good"))
  = verifyFBToken example_verifyIdToken (Some ("Bearer" ++ String space "good")).
Proof.
  apply (verifyFBToken_scheme_ignored example_verifyIdToken "Basic").
  vm_compute. reflexivity.
Defined.

(** * Roles and lists *)

Lemma emails_unique_others c1 (d : doc) c2 x :
  NoDup (map (λ u, get u "email") (c1 ++ d :: c2)%list) →
  x ∈ (c1 ++ c2)%list → get x "email" ≠ get d "email".
Proof.
  rewrite map_app. cbn [map]. intros Hnd Hx Heq.
  apply NoDup_app in Hnd as (_ & Hdisj & Hnd2). apply NoDup_cons in Hnd2 as [Hd2 _].
  apply elem_of_app in Hx as [Hx|Hx].
  - apply (Hdisj (get x "email")); [apply list_elem_of_fmap; by exists x|].
    rewrite Heq. left.
  - apply Hd2. rewrite <- Heq. apply list_elem_of_fmap. by exists x.
Qed.

(** X23: a role update takes effect at once, and on that user only.  For
    every user that [listUsers] shows to an administrator, after
    [updateRole] under the shown identifier with a role, the checks of the
    handlers ([has_role]) find exactly that role for the user's e-mail, and
    for every other e-mail what they found before. *)
Theorem updateRole_takes_effect dts st email l u' id e role :
  unique_ids (users st) → oid_ids (users st) → emails_unique st →
  listUsers dts st email = Data l →
  u' ∈ l → get u' "_id" = VStr id → get u' "email" = VStr e →
  (∀ r, has_role (updateRole st email id (VStr role)).1 e r = bool_decide (r = role)) ∧
  (∀ e' r, e' ≠ e →
     has_role (updateRole st email id (VStr role)).1 e' r = has_role st e' r).
Proof.
  intros Hu Ho He Hl Hu' Hid' He'. unfold listUsers in Hl.
  destruct (has_role st email "admin") eqn:Hadmin; [|done]. cbn [negb] in Hl.
  apply send_all_Data in Hl.
  destruct (mapM_elem_of_r _ _ _ _ Hl Hu') as (u & Hin & Hwu).
  unfold oid_ids in Ho. rewrite Forall_forall in Ho.
  destruct (Ho u Hin) as (h & Huid & Hh).
  rewrite (with_string_id_oid _ _ _ Huid) in Hwu. injection Hwu as <-.
  rewrite get_insert_eq in Hid'. injection Hid' as <-.
  rewrite get_insert_ne in He' by done.
  pose proof (findOne_unique _ _ Hu Hin) as Hfind. rewrite Huid in Hfind.
  destruct (findOne_split _ _ _ Hfind) as (c1 & c2 & Hc & Hm & Hc1).
  assert ((updateRole st email h (VStr role)).1
          = set_users st (c1 ++ <["role" := VStr role]> u :: c2)%list) as ->.
  { unfold updateRole. rewrite Hadmin, Hh. cbn [negb fst].
    by rewrite Hc, (updateOne_split _ _ _ _ _ Hc1 Hm). }
  unfold emails_unique in He. rewrite Hc in He.
  unfold has_role. cbn [users set_users]. split.
  - intros r. rewrite findOne_middle.
    + rewrite get_insert_eq. apply bool_decide_ext. split; congruence.
    + intros d Hd. destruct (matches _ d) eqn:E; [|done]. apply (matches_1 "email") in E.
      destruct (emails_unique_others c1 u c2 d He); [|congruence].
      apply elem_of_app. by left.
    + apply (matches_1 "email"). by rewrite get_insert_ne.
  - intros e' r Hne. rewrite Hc. unfold findOne, find.
    rewrite !filter_app, !filter_cons_False; [done|..];
      intros Hp%(matches_1_Is_true "email"); [|rewrite get_insert_ne in Hp by done]; congruence.
Qed.

Lemma updateRole_takes_effect_witness :
  (∀ r, has_role (updateRole example_store "admin@gmail.com" oid2 (VStr "admin")).1
          "librarian@gmail.com" r = bool_decide (r = "admin")) ∧
  (∀ e' r, e' ≠ "librarian@gmail.com" →
     has_role (updateRole example_store "admin@gmail.com" oid2 (VStr "admin")).1 e' r
     = has_role example_store e' r).
Proof.
  apply (updateRole_takes_effect example_date_toString example_store "admin@gmail.com"
           (default [] (mapM (with_string_id example_date_toString) (users example_store)))
           (<["_id" := VStr oid2]>
              (<["_id" := VOid oid2]>
                 (newUser static_adminEmails static_librarianEmails
                    "librarian@gmail.com" "uid-l" (VStr "Lina") VUndef 2000)))).
  - unfold unique_ids. apply (bool_decide_eq_true_1 _). vm_compute. reflexivity.
  - repeat (apply Forall_cons; split; [eexists; split; vm_compute; reflexivity|]).
    apply Forall_nil_2.
  - unfold emails_unique. apply (bool_decide_eq_true_1 _). vm_compute. reflexivity.
  - vm_compute. reflexivity.
  - apply (bool_decide_eq_true_1 _). vm_compute. reflexivity.
  - vm_compute. reflexivity.
  - vm_compute. reflexivity.
Defined.

(** X24: the orders a librarian is shown are the orders for the books the
    librarian is shown.  Every order of [listForLibrarian] has, as its
    [bookId] or among the elements of a [bookId] that is an array, the
    identifier of a book of [listMyBooks]; and every stored order that
    names one in either way is in [listForLibrarian]. *)
Theorem listForLibrarian_listMyBooks dts st email l bs :
  listForLibrarian dts st email = Data l →
  listMyBooks dts st email = Data bs →
  (∀ o', o' ∈ l → ∃ b', b' ∈ bs ∧ holds (get o' "bookId") (get b' "_id")) ∧
  (∀ o b', o ∈ orders st → b' ∈ bs → holds (get o "bookId") (get b' "_id") →
     ∃ o', o' ∈ l ∧ with_string_id dts o = Some o').
Proof.
  intros Hl Hbs. unfold listForLibrarian in Hl. unfold listMyBooks in Hbs.
  destruct (has_role st email "librarian"); [|done]. cbn [negb] in Hl, Hbs.
  destruct (mapM _ _) as [ids|] eqn:Hids; [|done].
  apply send_all_Data in Hl. apply send_all_Data in Hbs. split.
  - intros o' Ho'.
    destruct (mapM_elem_of_r _ _ _ _ Hl Ho') as (o & Ho & Hoo').
    apply (elem_of_find_in "bookId") in Ho as [(v & Hv & Hbook) Ho].
    apply list_elem_of_fmap in Hv as (s & -> & Hsin).
    destruct (mapM_elem_of_r _ _ _ _ Hids Hsin) as (bk & Hbk & Hbs').
    destruct (mapM_elem_of_l _ _ _ _ Hbs Hbk) as (b' & Hb' & Hin).
    exists b'. split; [done|].
    rewrite (with_string_id_get _ _ _ "bookId" Hoo') by done.
    unfold with_string_id in Hb'. rewrite Hbs' in Hb'. cbn in Hb'.
    injection Hb' as <-. by rewrite get_insert_eq.
  - intros o b' Ho Hb' Heq.
    destruct (mapM_elem_of_r _ _ _ _ Hbs Hb') as (bk & Hbk & Hwb).
    destruct (mapM_elem_of_l _ _ _ _ Hids Hbk) as (s & Hs & Hsin).
    unfold with_string_id in Hwb. rewrite Hs in Hwb. cbn in Hwb.
    injection Hwb as <-. rewrite get_insert_eq in Heq.
    destruct (mapM_elem_of_l _ _ _ o Hl) as (o' & Hoo' & Hin).
    { apply (elem_of_find_in "bookId"). split; [|done].
      exists (VStr s). split; [|done]. apply list_elem_of_fmap. by exists s. }
    by exists o'.
Qed.

Lemma listForLibrarian_listMyBooks_witness :
  (∀ o', o' ∈ [<["_id" := VStr oid4]> example_order] →
     ∃ b', b' ∈ [<["_id" := VStr oid3]> example_book] ∧
           holds (get o' "bookId") (get b' "_id")) ∧
  (∀ o b', o ∈ orders example_store → b' ∈ [<["_id" := VStr oid3]> example_book] →
     holds (get o "bookId") (get b' "_id") →
     ∃ o', o' ∈ [<["_id" := VStr oid4]> example_order] ∧
           with_string_id example_date_toString o = Some o').
Proof.
  apply (listForLibrarian_listMyBooks example_date_toString example_store
           "librarian@gmail.com").
  - vm_compute. reflexivity.
  - vm_compute. reflexivity.
Defined.

(** * The filters and the database *)

Lemma scalar_at_insertOne ks fresh d c c' id :
  insertOne fresh d c = Some (c', id) →
  Forall (λ k, k ≠ "_id" → is_array (get d k) = false) ks →
  scalar_at ks c → scalar_at ks c'.
Proof.
  intros E Hd Hc. pose proof (insertOne_not_array _ _ _ _ _ E) as Hid.
  apply insertOne_Some in E as (_ & -> & _).
  apply Forall_app. split; [done|]. apply Forall_singleton.
  eapply Forall_impl; [exact Hd|]. intros k Hk. cbn in Hk.
  destruct (decide (k = "_id")) as [->|Hne].
  - by rewrite get_insert_eq.
  - rewrite get_insert_ne by done. by apply Hk.
Qed.

Lemma scalar_at_updateOne ks q upd c :
  Forall (λ k, ∀ v, assoc upd k = Some v → is_array (to_bson v) = false) ks →
  scalar_at ks c → scalar_at ks (updateOne q upd c).1.
Proof.
  intros Hupd Hc. unfold scalar_at in *. rewrite Forall_forall in Hc.
  apply Forall_forall. intros d Hd.
  apply updateOne_elem_of in Hd as [Hd|(d0 & Hd0 & _ & ->)]; [by apply Hc|].
  specialize (Hc d0 Hd0). rewrite Forall_forall in Hupd, Hc.
  apply Forall_forall. intros k Hk. rewrite get_apply_set.
  destruct (assoc upd k) as [v|] eqn:E; [by apply (Hupd k Hk)|by apply Hc].
Qed.

Lemma scalar_at_sub ks c c' : (∀ d, d ∈ c' → d ∈ c) → scalar_at ks c → scalar_at ks c'.
Proof.
  unfold scalar_at. rewrite !Forall_forall. intros Hsub Hc d Hd. by apply Hc, Hsub.
Qed.

Ltac scalar_upd :=
  repeat (apply Forall_cons; split;
          [intros ?; cbn [assoc fst snd];
           repeat (destruct (decide _); try done); by intros [= <-]|]);
  try apply Forall_nil_2.

Lemma server_fields_scalar_handle dts admins libs r st :
  server_fields_scalar st → server_fields_scalar (handle dts admins libs r st).1.
Proof.
  intros (Hu & Hb & Ho). destruct r; cbn [handle].
  - unfold loginOrCreate. destruct (findOne _ _);
      [by destruct (with_string_id _ _)|].
    destruct (insertOne _ _ _) as [[us id]|] eqn:E; [|done].
    destruct (newUser_fields admins libs email uid name picture now)
      as (_ & _ & He & _).
    assert (scalar_at ["_id"; "email"] us).
    { eapply scalar_at_insertOne; [exact E| |done].
      repeat (apply Forall_cons; split; [intros ?|]); try apply Forall_nil_2;
        [done|by rewrite He]. }
    by destruct (js_toString dts id).
  - unfold publishCandidate.
    destruct (insertOne _ _ _) as [[bs id]|] eqn:E; [|done].
    split; [done|]. split; [|done]. eapply scalar_at_insertOne; [exact E| |done].
    repeat (apply Forall_cons; split; [intros ?|]); try apply Forall_nil_2;
      [done|by rewrite get_insert_eq].
  - unfold place.
    destruct (insertOne _ _ _) as [[os id]|] eqn:E; [|done].
    destruct (newOrder_fields email fields now) as (_ & He & _ & Hp & _).
    split; [done|]. split; [done|]. eapply scalar_at_insertOne; [exact E| |done].
    repeat (apply Forall_cons; split; [intros ?|]); try apply Forall_nil_2;
      [done|by rewrite He|by rewrite Hp].
  - unfold cancel, update_own_order. repeat case_match; try done.
    split; [done|]. split; [done|]. apply scalar_at_updateOne; [scalar_upd|done].
  - unfold pay, update_own_order. repeat case_match; try done.
    split; [done|]. split; [done|]. apply scalar_at_updateOne; [scalar_upd|done].
  - unfold updateStatus. repeat case_match; try done.
    split; [done|]. split; [done|]. apply scalar_at_updateOne; [scalar_upd|done].
  - unfold updateRole. repeat case_match; try done.
    split; [|done]. apply scalar_at_updateOne; [scalar_upd|done].
  - unfold setStatus. repeat case_match; try done.
    split; [done|]. split; [|done]. apply scalar_at_updateOne; [scalar_upd|done].
  - unfold deleteCascade. repeat case_match; try done;
      (split; [done|]); split; cbn [fst books orders set_books set_orders];
      first [ done
            | eapply scalar_at_sub; [|done]; intros d Hd; by apply deleteOne_elem_of in Hd
            | eapply scalar_at_sub; [|done]; unfold deleteMany;
              intros d Hd; apply list_elem_of_filter in Hd; tauto ].
  - unfold updateOwned. repeat case_match; try done.
    split; [done|]. split; [|done]. apply scalar_at_updateOne; [|done].
    repeat (apply Forall_cons; split;
            [intros v; rewrite updateOwned_fields_assoc; [done|];
             apply (bool_decide_eq_false_1 (_ ∈ _)); vm_compute; reflexivity|]).
    apply Forall_nil_2.
Qed.

Lemma matches_scalar_at ks q c d :
  scalar_at ks c → reads_only ks q → d ∈ c → matches q d = matches_any q d.
Proof.
  intros Hc Hq Hd. apply matches_matches_any. intros kv Hkv Hk.
  unfold scalar_at in Hc. rewrite Forall_forall in Hc.
  specialize (Hc d Hd). rewrite Forall_forall in Hc. by apply Hc, Hq.
Qed.

(** X25: on the stores the server reaches, the filters of the handlers
    select what the database selects.  The handlers never write an array
    under a field they filter on by equality: [_id] comes from the driver,
    which refuses an array, and the e-mail of a user and an order, the
    [librarianEmail] of a book and the [paymentStatus] of an order are
    written from the verified e-mail or a constant.  So a filter that, of
    these fields, reads only those of its collection matches a document of
    the collection exactly when the database's array-aware filter does. *)
Theorem matches_faithful dts admins libs P st :
  reachable_by dts admins libs P st →
  server_fields_scalar st ∧
  (∀ q d, reads_only ["_id"; "email"] q → d ∈ users st →
          matches q d = matches_any q d) ∧
  (∀ q d, reads_only ["_id"; "librarianEmail"] q → d ∈ books st →
          matches q d = matches_any q d) ∧
  (∀ q d, reads_only ["_id"; "email"; "paymentStatus"] q → d ∈ orders st →
          matches q d = matches_any q d).
Proof.
  intros Hreach.
  assert (server_fields_scalar st) as Hst.
  { induction Hreach as [|st r Hreach IH Hr].
    - repeat split; apply Forall_nil_2.
    - by apply server_fields_scalar_handle. }
  split; [done|]. destruct Hst as (Hu & Hb & Ho).
  split; [|split]; intros q d Hq Hd.
  - by apply (matches_scalar_at _ _ _ _ Hu).
  - by apply (matches_scalar_at _ _ _ _ Hb).
  - by apply (matches_scalar_at _ _ _ _ Ho).
Qed.

Lemma matches_faithful_witness :
  server_fields_scalar example_store ∧
  (∀ q d, reads_only ["_id"; "email"] q → d ∈ users example_store →
          matches q d = matches_any q d) ∧
  (∀ q d, reads_only ["_id"; "librarianEmail"] q → d ∈ books example_store →
          matches q d = matches_any q d) ∧
  (∀ q d, reads_only ["_id"; "email"; "paymentStatus"] q → d ∈ orders example_store →
          matches q d = matches_any q d).
Proof.
  apply (matches_faithful example_date_toString static_adminEmails
           static_librarianEmails (λ _, True)).
  apply reachable_run. by apply Forall_forall.
Defined.
